(** * weather-map-app: the geographic rendering pipeline

    A shallow embedding of [src/lib/map-utils.ts], of the zoom and render
    logic of [src/components/map/SVGMap.tsx] and of the result filtering of
    the search box, with the properties the specification states about them.

    Numbers.  A JavaScript [number] is modelled by [number] below: an exact
    rational, or one of the three special values [NaN], [Infinity] and
    [-Infinity], which the source itself uses ([calculateBounds] starts from
    [Infinity] and [-Infinity]).  Arithmetic on finite values is exact:
    binary64 rounding, overflow and the sign of zero are outside the model.
    Reading a missing array element gives [undefined], which every use in
    this code converts to [NaN].

    The exact model and the binary64 arithmetic of the source part in two
    ways: an operation on large values overflows to an infinity in the
    source and not in the model, and the rounding of an operation can decide
    a comparison.  What depends on either is stated in [Binary64], where
    [projectCoordinate] and [pointInPolygon] are embedded over the binary64
    numbers themselves; a statement over the exact model that an overflow
    would break carries a bound on the magnitudes ([JS.moderate]). *)

From Stdlib Require Import QArith Qminmax Qround Lqa Lia ZArith Bool.
From Stdlib Require Import Strings.String Strings.Ascii DecimalString.
From Stdlib Require Import Sorting.Permutation.
From stdpp Require Import base option list gmap.

(** ** JavaScript numbers *)

Module JS.

Local Open Scope Q_scope.

Inductive number : Type :=
| NaN
| PosInf                      (* Infinity *)
| NegInf                      (* -Infinity *)
| Fin (q : Q).

Definition Infinity : number := PosInf.

(** The value read from a missing array slot, once converted to a number. *)
Definition undefined : number := NaN.

(** Two model values denote the same JavaScript number. *)
Definition same (a b : number) : Prop :=
  match a, b with
  | NaN, NaN | PosInf, PosInf | NegInf, NegInf => True
  | Fin p, Fin q => p == q
  | _, _ => False
  end.

Definition finite (a : number) : Prop :=
  match a with Fin _ => True | _ => False end.

Definition is_zero (a : number) : Prop :=
  match a with Fin q => q == 0 | _ => False end.

(** A finite value of magnitude at most 2^500.  The largest binary64 number
    is just below 2^1024: a sum, a difference or a product of two moderate
    values, rounded or not, is far from overflowing. *)
Definition moderate (q : Q) : Prop := - 2 ^ 500 <= q <= 2 ^ 500.

Definition moderate_number (a : number) : Prop :=
  match a with Fin q => moderate q | _ => False end.

(** Unary minus. *)
Definition neg (a : number) : number :=
  match a with
  | NaN => NaN
  | PosInf => NegInf
  | NegInf => PosInf
  | Fin q => Fin (- q)
  end.

(** An infinity with the sign of [q], or [NaN] when [q] is zero. *)
Definition signed_inf (q : Q) : number :=
  match q ?= 0 with
  | Gt => PosInf
  | Lt => NegInf
  | Eq => NaN
  end.

(** [a + b] *)
Definition add (a b : number) : number :=
  match a, b with
  | NaN, _ | _, NaN => NaN
  | PosInf, NegInf | NegInf, PosInf => NaN
  | PosInf, _ | _, PosInf => PosInf
  | NegInf, _ | _, NegInf => NegInf
  | Fin p, Fin q => Fin (p + q)
  end.

(** [a - b] *)
Definition sub (a b : number) : number := add a (neg b).

(** [a * b] *)
Definition mul (a b : number) : number :=
  match a, b with
  | NaN, _ | _, NaN => NaN
  | PosInf, PosInf | NegInf, NegInf => PosInf
  | PosInf, NegInf | NegInf, PosInf => NegInf
  | PosInf, Fin q | Fin q, PosInf => signed_inf q
  | NegInf, Fin q | Fin q, NegInf => signed_inf (- q)
  | Fin p, Fin q => Fin (p * q)
  end.

(** [a / b].  A finite value over zero is an infinity (or [NaN] for 0/0);
    zero is taken as positive. *)
Definition div (a b : number) : number :=
  match a, b with
  | NaN, _ | _, NaN => NaN
  | (PosInf | NegInf), (PosInf | NegInf) => NaN
  | PosInf, Fin q => if Qle_bool 0 q then PosInf else NegInf
  | NegInf, Fin q => if Qle_bool 0 q then NegInf else PosInf
  | Fin _, (PosInf | NegInf) => Fin 0
  | Fin p, Fin q => if Qeq_bool q 0 then signed_inf p else Fin (p / q)
  end.

(** [a < b]: false as soon as one side is [NaN]. *)
Definition lt (a b : number) : bool :=
  match a, b with
  | NaN, _ | _, NaN => false
  | _, NegInf => false
  | NegInf, _ => true
  | PosInf, _ => false
  | _, PosInf => true
  | Fin p, Fin q => match p ?= q with Lt => true | _ => false end
  end.

(** [a > b] *)
Definition gt (a b : number) : bool := lt b a.

(** [Math.min(a, b)] and [Math.max(a, b)]: [NaN] as soon as one argument is. *)
Definition Math_min (a b : number) : number :=
  match a, b with
  | NaN, _ | _, NaN => NaN
  | _, _ => if lt b a then b else a
  end.

Definition Math_max (a b : number) : number :=
  match a, b with
  | NaN, _ | _, NaN => NaN
  | _, _ => if lt a b then b else a
  end.

(** [a !== b] on booleans. *)
Definition strict_ne (a b : bool) : bool := xorb a b.

(** [a <= b] on numbers, and what it is to be the minimum or the maximum of
    a list of numbers; over no number at all these are [Infinity] and
    [-Infinity]. *)
Definition le (a b : number) : Prop :=
  match a, b with
  | NaN, _ | _, NaN => False
  | NegInf, _ | _, PosInf => True
  | Fin p, Fin q => p <= q
  | _, _ => False
  end.

Definition is_minimum (m : number) (l : list number) : Prop :=
  (forall a, In a l -> le m a) /\ (l = [] -> m = PosInf) /\ (l <> [] -> In m l).

Definition is_maximum (m : number) (l : list number) : Prop :=
  (forall a, In a l -> le a m) /\ (l = [] -> m = NegInf) /\ (l <> [] -> In m l).

(** *** Facts *)

Lemma Qeq_bool_false (q : Q) : ~ q == 0 -> Qeq_bool q 0 = false.
Proof.
  intros Hq. destruct (Qeq_bool q 0) eqn:E; [|reflexivity].
  apply Qeq_bool_eq in E. contradiction.
Qed.

Lemma div_Fin (p q : Q) : ~ q == 0 -> div (Fin p) (Fin q) = Fin (p / q).
Proof. intros Hq. simpl. now rewrite Qeq_bool_false. Qed.

Lemma sub_Fin (p q : Q) : sub (Fin p) (Fin q) = Fin (p - q).
Proof. reflexivity. Qed.

Lemma lt_Fin (p q : Q) : lt (Fin p) (Fin q) = true <-> p < q.
Proof.
  simpl. rewrite Qlt_alt. destruct (p ?= q); split; congruence.
Qed.

Lemma le_refl (a : number) : a <> NaN -> le a a.
Proof. destruct a; simpl; try easy. intros _. apply Qle_refl. Qed.

Lemma le_trans (a b c : number) : le a b -> le b c -> le a c.
Proof.
  destruct a, b, c; simpl; try easy. apply Qle_trans.
Qed.

Lemma le_not_NaN (a b : number) : le a b -> a <> NaN /\ b <> NaN.
Proof. destruct a, b; simpl; easy. Qed.

Lemma Math_min_spec (a b : number) :
  a <> NaN -> b <> NaN ->
  (Math_min a b = a \/ Math_min a b = b)
  /\ le (Math_min a b) a /\ le (Math_min a b) b.
Proof.
  intros Ha Hb.
  destruct a as [| | |p], b as [| | |q]; try easy; unfold Math_min.
  1-8: cbn; repeat split; auto; apply Qle_refl.
  destruct (lt (Fin q) (Fin p)) eqn:E.
  - apply lt_Fin in E. repeat split; auto; cbn [le]; lra.
  - assert (~ q < p) by (rewrite <- lt_Fin; congruence).
    repeat split; auto; cbn [le]; lra.
Qed.

Lemma Math_max_spec (a b : number) :
  a <> NaN -> b <> NaN ->
  (Math_max a b = a \/ Math_max a b = b)
  /\ le a (Math_max a b) /\ le b (Math_max a b).
Proof.
  intros Ha Hb.
  destruct a as [| | |p], b as [| | |q]; try easy; unfold Math_max.
  1-8: cbn; repeat split; auto; apply Qle_refl.
  destruct (lt (Fin p) (Fin q)) eqn:E.
  - apply lt_Fin in E. repeat split; auto; cbn [le]; lra.
  - assert (~ p < q) by (rewrite <- lt_Fin; congruence).
    repeat split; auto; cbn [le]; lra.
Qed.

(** The running minimum of a loop that starts from [m]. *)
Lemma fold_Math_min (l : list number) (m : number) :
  m <> NaN -> Forall (fun a => a <> NaN) l ->
  let r := fold_left Math_min l m in
  le r m /\ (forall a, In a l -> le r a) /\ (r = m \/ In r l).
Proof.
  intros Hm Hl. revert m Hm.
  induction Hl as [|a l Ha Hl IH]; intros m Hm; simpl.
  - split; [now apply le_refl | split; [easy | now left]].
  - destruct (Math_min_spec m a Hm Ha) as (Hor & Hle_m & Hle_a).
    assert (Hn : Math_min m a <> NaN) by (apply (le_not_NaN _ _ Hle_m)).
    destruct (IH _ Hn) as (H1 & H2 & H3).
    split; [eapply le_trans; eassumption|].
    split.
    + intros b [<-|Hb]; [eapply le_trans; eassumption | now apply H2].
    + destruct H3 as [H3|H3]; [|now right; right].
      rewrite H3. destruct Hor as [->| ->]; [now left | now right; left].
Qed.

Lemma fold_Math_max (l : list number) (m : number) :
  m <> NaN -> Forall (fun a => a <> NaN) l ->
  let r := fold_left Math_max l m in
  le m r /\ (forall a, In a l -> le a r) /\ (r = m \/ In r l).
Proof.
  intros Hm Hl. revert m Hm.
  induction Hl as [|a l Ha Hl IH]; intros m Hm; simpl.
  - split; [now apply le_refl | split; [easy | now left]].
  - destruct (Math_max_spec m a Hm Ha) as (Hor & Hle_m & Hle_a).
    assert (Hn : Math_max m a <> NaN) by (apply (le_not_NaN _ _ Hle_m)).
    destruct (IH _ Hn) as (H1 & H2 & H3).
    split; [eapply le_trans; eassumption|].
    split.
    + intros b [<-|Hb]; [eapply le_trans; eassumption | now apply H2].
    + destruct H3 as [H3|H3]; [|now right; right].
      rewrite H3. destruct Hor as [->| ->]; [now left | now right; left].
Qed.

Lemma minimum_from_Infinity (l : list number) :
  Forall (fun a => a <> NaN) l -> is_minimum (fold_left Math_min l PosInf) l.
Proof.
  intros Hl. destruct (fold_Math_min l PosInf) as (H1 & H2 & H3); [easy | exact Hl |].
  split; [exact H2 | split].
  - now intros ->.
  - intros Hne. destruct H3 as [H3|H3]; [|exact H3].
    destruct l as [|a l]; [easy|].
    pose proof (H2 a (or_introl eq_refl)) as Ha. rewrite H3 in Ha.
    destruct a; simpl in Ha; try easy. now left.
Qed.

Lemma maximum_from_minus_Infinity (l : list number) :
  Forall (fun a => a <> NaN) l -> is_maximum (fold_left Math_max l NegInf) l.
Proof.
  intros Hl. destruct (fold_Math_max l NegInf) as (H1 & H2 & H3); [easy | exact Hl |].
  split; [exact H2 | split].
  - now intros ->.
  - intros Hne. destruct H3 as [H3|H3]; [|exact H3].
    destruct l as [|a l]; [easy|].
    pose proof (H2 a (or_introl eq_refl)) as Ha. rewrite H3 in Ha.
    destruct a; simpl in Ha; try easy. now left.
Qed.

Lemma Math_min_Fin (a b : Q) :
  exists r, Math_min (Fin a) (Fin b) = Fin r /\ r == Qmin a b.
Proof.
  unfold Math_min. destruct (lt (Fin b) (Fin a)) eqn:E.
  - apply lt_Fin in E. exists b. split; [reflexivity|].
    symmetry. apply Q.min_r. lra.
  - assert (~ b < a) by (rewrite <- lt_Fin; congruence).
    exists a. split; [reflexivity|]. symmetry. apply Q.min_l. lra.
Qed.

Lemma Math_max_Fin (a b : Q) :
  exists r, Math_max (Fin a) (Fin b) = Fin r /\ r == Qmax a b.
Proof.
  unfold Math_max. destruct (lt (Fin a) (Fin b)) eqn:E.
  - apply lt_Fin in E. exists b. split; [reflexivity|].
    symmetry. apply Q.max_r. lra.
  - assert (~ a < b) by (rewrite <- lt_Fin; congruence).
    exists a. split; [reflexivity|]. symmetry. apply Q.max_l. lra.
Qed.

End JS.

Import JS.

(** ** Promises

    What [loadCombinedMapData] uses of the language's promises.  A promise
    ends in an outcome; promises started together end in any order, and
    [schedule] lists their indices in the order in which they end.
    [Promise.all] is ECMAScript's: it keeps one slot per promise and a count
    of the promises that have not ended yet. *)

Module Promise.

Inductive Outcome (A : Type) : Type :=
| Resolved (value : A)
| Rejected (reason : string).

Arguments Resolved {A} value.
Arguments Rejected {A} reason.

(** The state [Promise.all] keeps: the array of values, filled by index as
    the promises end, the count of promises still pending, and the outcome
    once settled. *)
Record AllState (A : Type) : Type := {
  values : list (option A);
  remainingElementsCount : nat;
  settled : option (Outcome (list A))
}.

Arguments values {A} _.
Arguments remainingElementsCount {A} _.
Arguments settled {A} _.

Definition all_start {A : Type} (n : nat) : AllState A :=
  {| values := replicate n None;
     remainingElementsCount := n;
     settled := if (n =? 0)%nat then Some (Resolved []) else None |}.

(** The promise at [index] ends.  A rejection rejects the whole; a value is
    stored at the promise's own index and the last one to arrive resolves
    the whole with the array of values.  Once settled nothing changes. *)
Definition all_step {A : Type} (outcomes : list (Outcome A))
    (st : AllState A) (index : nat) : AllState A :=
  match settled st with
  | Some _ => st
  | None =>
      match outcomes !! index with
      | None => st
      | Some (Rejected reason) =>
          {| values := values st;
             remainingElementsCount := remainingElementsCount st;
             settled := Some (Rejected reason) |}
      | Some (Resolved value) =>
          let values := <[index := Some value]> (values st) in
          let remaining := (remainingElementsCount st - 1)%nat in
          {| values := values;
             remainingElementsCount := remaining;
             settled := if (remaining =? 0)%nat
                        then Some (Resolved (omap id values)) else None |}
      end
  end.

(** [await Promise.all(promises)]: [None] while one of them is pending. *)
Definition all {A : Type} (outcomes : list (Outcome A)) (schedule : list nat)
    : option (Outcome (list A)) :=
  settled (fold_left (all_step outcomes) schedule (all_start (length outcomes))).

(** *** Facts: [Promise.all] keeps the order of its arguments *)

(** The state after the promises of [done] have ended, all with a value. *)
Definition all_inv {A : Type} (vs : list A) (done : list nat) (st : AllState A) : Prop :=
  length (values st) = length vs
  /\ (forall k v, k ∈ done -> vs !! k = Some v -> values st !! k = Some (Some v))
  /\ (remainingElementsCount st + length done = length vs)%nat
  /\ ((length done < length vs)%nat -> settled st = None)
  /\ (length done = length vs -> settled st = Some (Resolved vs)).

Lemma omap_id_Some {A : Type} (vs : list A) : omap id (Some <$> vs) = vs.
Proof. induction vs as [|v vs IH]; [reflexivity|]. cbn. now rewrite IH. Qed.

Lemma all_inv_start {A : Type} (vs : list A) : all_inv vs [] (all_start (length vs)).
Proof.
  unfold all_inv, all_start; cbn.
  split; [apply length_replicate|].
  split; [intros k v Hk; now apply elem_of_nil in Hk|].
  split; [lia|].
  split.
  - intros H. destruct (Nat.eqb_spec (length vs) 0); [lia | reflexivity].
  - intros H. destruct vs; [reflexivity | discriminate].
Qed.

Lemma all_inv_step {A : Type} (vs : list A) (done : list nat) (st : AllState A)
    (k : nat) (v : A) :
  all_inv vs done st ->
  vs !! k = Some v -> k ∉ done -> (length done < length vs)%nat ->
  (length (done ++ [k]) = length vs -> forall i, (i < length vs)%nat -> i ∈ done ++ [k]) ->
  all_inv vs (done ++ [k]) (all_step (Resolved <$> vs) st k).
Proof.
  intros (Hlen & Hval & Hrem & Hpend & _) Hk Hfresh Hdone Hfull.
  assert (Hlt : (k < length vs)%nat) by (apply lookup_lt_is_Some; eauto).
  unfold all_step. rewrite (Hpend Hdone), list_lookup_fmap, Hk. cbn [fmap option_fmap option_map].
  assert (Hval' : forall i w, i ∈ done ++ [k] -> vs !! i = Some w ->
                    <[k := Some v]> (values st) !! i = Some (Some w)).
  { intros i w Hi Hw. destruct (decide (i = k)) as [->|Hne].
    - rewrite list_lookup_insert_eq by lia. congruence.
    - rewrite list_lookup_insert_ne by congruence.
      apply Hval; [|exact Hw].
      apply elem_of_app in Hi as [Hi|Hi]; [exact Hi|].
      apply list_elem_of_singleton in Hi. contradiction. }
  unfold all_inv; cbn [values remainingElementsCount settled].
  rewrite length_app in *. cbn [length] in *.
  split; [now rewrite length_insert|].
  split; [exact Hval'|].
  split; [lia|].
  split.
  - intros H. destruct (Nat.eqb_spec (remainingElementsCount st - 1) 0); [lia | reflexivity].
  - intros H. destruct (Nat.eqb_spec (remainingElementsCount st - 1) 0); [|lia].
    do 2 f_equal.
    transitivity (omap id (Some <$> vs)); [f_equal | apply omap_id_Some].
    apply list_eq. intros i. rewrite list_lookup_fmap.
    destruct (vs !! i) as [w|] eqn:Hi.
    + apply Hval'; [|exact Hi]. apply Hfull; [exact H|].
      apply lookup_lt_is_Some; eauto.
    + apply lookup_ge_None in Hi. apply lookup_ge_None.
      rewrite length_insert. lia.
Qed.

Lemma all_run {A : Type} (vs : list A) (rest : list nat) :
  forall (done : list nat) (st : AllState A),
    done ++ rest ≡ₚ seq 0 (length vs) ->
    all_inv vs done st ->
    settled (fold_left (all_step (Resolved <$> vs)) rest st) = Some (Resolved vs).
Proof.
  induction rest as [|k rest IH]; intros done st Hperm Hinv.
  - rewrite app_nil_r in Hperm.
    destruct Hinv as (_ & _ & _ & _ & Hfull). apply Hfull.
    rewrite Hperm. apply length_seq.
  - cbn [fold_left].
    assert (Hnodup : NoDup (done ++ k :: rest)).
    { rewrite Hperm. apply NoDup_seq. }
    assert (Hk : (k < length vs)%nat).
    { assert (Hin : k ∈ seq 0 (length vs)).
      { rewrite <- Hperm. apply elem_of_app. right. apply list_elem_of_here. }
      apply elem_of_seq in Hin. lia. }
    destruct (lookup_lt_is_Some_2 vs k Hk) as [v Hv].
    apply (IH (done ++ [k])).
    + now rewrite <- app_assoc.
    + assert (Hlen : (length done + S (length rest) = length vs)%nat).
      { apply Permutation_length in Hperm.
        now rewrite length_app, length_seq in Hperm. }
      apply all_inv_step with (v := v); [exact Hinv | exact Hv | | lia |].
      * apply NoDup_app in Hnodup as (_ & Hdisj & _).
        intros Hin. apply (Hdisj k Hin). apply list_elem_of_here.
      * intros Hfull i Hi. rewrite length_app in Hfull. cbn [length] in Hfull.
        assert (Hrest : rest = []) by (destruct rest; [reflexivity | cbn [length] in Hlen; lia]).
        subst rest. rewrite Hperm. apply elem_of_seq. lia.
Qed.

(** Whatever the order in which the promises end, when all of them give a
    value [Promise.all] resolves with the values in the order in which the
    promises were passed. *)
Lemma all_resolved {A : Type} (vs : list A) (schedule : list nat) :
  schedule ≡ₚ seq 0 (length vs) ->
  all (Resolved <$> vs) schedule = Some (Resolved vs).
Proof.
  intros Hperm. unfold all. rewrite length_fmap.
  apply (all_run vs schedule []); [exact Hperm | apply all_inv_start].
Qed.

End Promise.

(** ** map-utils.ts *)

Module MapUtils.

Local Open Scope Q_scope.

Record Coordinates : Type := { lat : number; lng : number }.

Record MapBounds : Type := {
  minLat : number;
  maxLat : number;
  minLng : number;
  maxLng : number;
  width : number;
  height : number
}.

(** The object [{ x, y }]. *)
Record Point : Type := { x : number; y : number }.

Definition projectCoordinate (coord : Coordinates) (bounds : MapBounds) : Point :=
  let '{| lat := lat; lng := lng |} := coord in
  let '{| minLat := minLat; maxLat := maxLat; minLng := minLng;
          maxLng := maxLng; width := width; height := height |} := bounds in
  let x := mul (div (sub lng minLng) (sub maxLng minLng)) width in
  let y := sub height (mul (div (sub lat minLat) (sub maxLat minLat)) height) in
  {| x := x; y := y |}.

(** A GeoJSON position [[lng, lat]] is an array of numbers, a ring an array
    of positions. *)
Definition Position : Type := list number.
Definition Ring : Type := list Position.

(** A geometry object [{ type, coordinates }].  The tag fixes the nesting of
    [coordinates], as the casts of the source assume; [OtherGeometry t] is a
    geometry of any other type [t] (Point, LineString, ...), whose
    coordinates the code never reads. *)
Inductive Geometry : Type :=
| Polygon (coordinates : list Ring)
| MultiPolygon (coordinates : list (list Ring))
| OtherGeometry (type : string).

Definition geometry_type (g : Geometry) : string :=
  match g with
  | Polygon _ => "Polygon"
  | MultiPolygon _ => "MultiPolygon"
  | OtherGeometry t => t
  end.

(** [arr.push(a)] *)
Definition push {A : Type} (arr : list A) (a : A) : list A := arr ++ [a].

(** [arr.forEach((a, index) => ...)] threading the state [s] the callback
    mutates; [forEach] is the same without the index. *)
Fixpoint forEach_from {A St : Type} (f : St -> A -> nat -> St)
    (index : nat) (arr : list A) (s : St) : St :=
  match arr with
  | [] => s
  | a :: arr' => forEach_from f (S index) arr' (f s a index)
  end.

Definition forEach_indexed {A St : Type} (f : St -> A -> nat -> St)
    (arr : list A) (s : St) : St :=
  forEach_from f 0 arr s.

Definition forEach {A St : Type} (f : St -> A -> St) (arr : list A) (s : St) : St :=
  fold_left f arr s.

(** [arr.join(sep)] *)
Definition join (arr : list string) (sep : string) : string :=
  String.concat sep arr.

(** [const [lng, lat] = coord] *)
Definition coord_lng (coord : Position) : number := nth 0 coord undefined.
Definition coord_lat (coord : Position) : number := nth 1 coord undefined.

Section SVGPath.

(** The conversion of a number to a string inside a template literal. *)
Variable toString : number -> string.

Local Open Scope string_scope.

Definition polygonToSVGPath (coordinates : list Ring) (bounds : MapBounds) : string :=
  let paths :=
    forEach (fun (paths : list string) (ring : Ring) =>
      let pathCommands :=
        forEach_indexed (fun (pathCommands : list string) coord coordIndex =>
          let lng := coord_lng coord in
          let lat := coord_lat coord in
          let p := projectCoordinate {| lat := lat; lng := lng |} bounds in
          if (coordIndex =? 0)%nat
          then push pathCommands ("M " ++ toString (x p) ++ " " ++ toString (y p))
          else push pathCommands ("L " ++ toString (x p) ++ " " ++ toString (y p)))
          ring [] in
      let pathCommands := push pathCommands "Z" in
      push paths (join pathCommands " "))
      coordinates [] in
  join paths " ".

Definition multiPolygonToSVGPath (coordinates : list (list Ring)) (bounds : MapBounds)
    : string :=
  let paths :=
    forEach (fun (paths : list string) (polygon : list Ring) =>
      forEach (fun (paths : list string) (ring : Ring) =>
        let pathCommands :=
          forEach_indexed (fun (pathCommands : list string) coord coordIndex =>
            let lng := coord_lng coord in
            let lat := coord_lat coord in
            let p := projectCoordinate {| lat := lat; lng := lng |} bounds in
            if (coordIndex =? 0)%nat
            then push pathCommands ("M " ++ toString (x p) ++ " " ++ toString (y p))
            else push pathCommands ("L " ++ toString (x p) ++ " " ++ toString (y p)))
            ring [] in
        let pathCommands := push pathCommands "Z" in
        push paths (join pathCommands " "))
        polygon paths)
      coordinates [] in
  join paths " ".

(** The [default] branch also logs a warning, which has no effect on the
    result. *)
Definition geometryToSVGPath (geometry : Geometry) (bounds : MapBounds) : string :=
  match geometry with
  | Polygon coordinates => polygonToSVGPath coordinates bounds
  | MultiPolygon coordinates => multiPolygonToSVGPath coordinates bounds
  | OtherGeometry _ => ""
  end.

(** The path of one ring, as the specification writes it:
    [M x0 y0 L x1 y1 ... L xn yn Z].  A ring without a position gives the
    closing command alone. *)
Definition svg_xy (bounds : MapBounds) (c : Position) : string :=
  let p := projectCoordinate {| lat := coord_lat c; lng := coord_lng c |} bounds in
  toString (x p) ++ " " ++ toString (y p).

Definition svg_ring (bounds : MapBounds) (ring : Ring) : string :=
  match ring with
  | [] => "Z"
  | c0 :: cs =>
      "M " ++ svg_xy bounds c0
        ++ String.concat "" (map (fun c => " L " ++ svg_xy bounds c) cs)
        ++ " Z"
  end.

End SVGPath.

(** *** calculateBounds *)

(** A feature of the GeoJSON data, with the properties the code reads
    ([center] is absent from some data, which the map view tests). *)
Record GeoFeature : Type := {
  adcode : number;
  name : string;
  center : option Position;
  geometry : Geometry
}.

(** A feature collection; its constant [type] tag is left out. *)
Record GeoData : Type := { features : list GeoFeature }.

(** The four variables [minLat], [maxLat], [minLng], [maxLng] of
    [calculateBounds]. *)
Record Extent : Type := {
  e_minLat : number;
  e_maxLat : number;
  e_minLng : number;
  e_maxLng : number
}.

(** The body of the innermost callback, the same in both branches. *)
Definition extend (e : Extent) (coord : Position) : Extent :=
  let lng := coord_lng coord in
  let lat := coord_lat coord in
  {| e_minLat := Math_min (e_minLat e) lat;
     e_maxLat := Math_max (e_maxLat e) lat;
     e_minLng := Math_min (e_minLng e) lng;
     e_maxLng := Math_max (e_maxLng e) lng |}.

Definition calculateBounds (geoData : GeoData) (padding : option number) : MapBounds :=
  let padding := default (Fin 0.1) padding in
  let e := {| e_minLat := Infinity; e_maxLat := neg Infinity;
              e_minLng := Infinity; e_maxLng := neg Infinity |} in
  let e :=
    forEach (fun e feature =>
      match geometry feature with
      | MultiPolygon coordinates =>
          forEach (fun e polygon =>
            forEach (fun e ring => forEach extend ring e) polygon e)
            coordinates e
      | Polygon coordinates =>
          forEach (fun e ring => forEach extend ring e) coordinates e
      | OtherGeometry _ => e
      end)
      (features geoData) e in
  let latPadding := mul (sub (e_maxLat e) (e_minLat e)) padding in
  let lngPadding := mul (sub (e_maxLng e) (e_minLng e)) padding in
  {| minLat := sub (e_minLat e) latPadding;
     maxLat := add (e_maxLat e) latPadding;
     minLng := sub (e_minLng e) lngPadding;
     maxLng := add (e_maxLng e) lngPadding;
     width := Fin 800;
     height := Fin 600 |}.

(** Every position [calculateBounds] is specified over: those of every ring
    of every feature whose geometry is a Polygon or a MultiPolygon. *)
Definition geometry_positions (g : Geometry) : list Position :=
  match g with
  | Polygon coordinates => concat coordinates
  | MultiPolygon coordinates => concat (concat coordinates)
  | OtherGeometry _ => []
  end.

Definition positions (geoData : GeoData) : list Position :=
  concat (map (fun f => geometry_positions (geometry f)) (features geoData)).

Definition finite_position (c : Position) : Prop :=
  finite (coord_lng c) /\ finite (coord_lat c).

(** *** pointInPolygon *)

(** [arr[i]] for an integer [i]: [None] is [undefined]. *)
Definition at_index {A : Type} (arr : list A) (i : Z) : option A :=
  if (i <? 0)%Z then None else nth_error arr (Z.to_nat i).

(** The [for] loop.  It runs while [i < polygon.length] with [i] counting up
    from 0, so [remaining] is [polygon.length - i].  The result is [None]
    when the body reads [.x] of [undefined], which throws.  Besides [inside]
    the loop records, in [divisors], the divisor of every division it
    evaluates: the right operand of [&&] is evaluated only when the left one
    is true. *)
Fixpoint pointInPolygon_loop (point : Point) (polygon : list Point)
    (remaining : nat) (i j : Z) (inside : bool) (divisors : list number)
    : option (bool * list number) :=
  match remaining with
  | O => Some (inside, divisors)
  | S remaining' =>
      match at_index polygon i, at_index polygon j with
      | Some pi, Some pj =>
          let xi := x pi in
          let yi := y pi in
          let xj := x pj in
          let yj := y pj in
          if strict_ne (gt yi (y point)) (gt yj (y point))
          then
            let divisor := sub yj yi in
            let inside :=
              if lt (x point)
                    (add (div (mul (sub xj xi) (sub (y point) yi)) divisor) xi)
              then negb inside else inside in
            pointInPolygon_loop point polygon remaining' (i + 1)%Z i inside
              (push divisors divisor)
          else
            pointInPolygon_loop point polygon remaining' (i + 1)%Z i inside divisors
      | _, _ => None
      end
  end.

Definition pointInPolygon_run (point : Point) (polygon : list Point)
    : option (bool * list number) :=
  pointInPolygon_loop point polygon (length polygon)
    0%Z (Z.of_nat (length polygon) - 1)%Z false [].

Definition pointInPolygon (point : Point) (polygon : list Point) : option bool :=
  fst <$> pointInPolygon_run point polygon.

(** The edges of a vertex list, each as (P[j], P[i]) with P[j] the vertex
    before P[i]; the first edge closes the polygon from the last vertex. *)
Definition edges (polygon : list Point) : list (Point * Point) :=
  match polygon with
  | [] => []
  | p0 :: _ => combine (List.last polygon p0 :: removelast polygon) polygon
  end.

(** Exactly one endpoint of the edge has a y-coordinate greater than the
    point's. *)
Definition straddles (point : Point) (e : Point * Point) : bool :=
  let '(pj, pi) := e in
  xorb (gt (y pi) (y point)) (gt (y pj) (y point)).

(** Where the edge meets the horizontal line through the point. *)
Definition intersection_x (point : Point) (e : Point * Point) : number :=
  let '(pj, pi) := e in
  add (div (mul (sub (x pj) (x pi)) (sub (y point) (y pi)))
           (sub (y pj) (y pi)))
      (x pi).

(** The edge is counted: it straddles the line and meets it strictly to the
    right of the point. *)
Definition crosses (point : Point) (e : Point * Point) : bool :=
  straddles point e && lt (x point) (intersection_x point e).

(** The divisor of the division the loop evaluates for an edge. *)
Definition edge_divisor (e : Point * Point) : number :=
  let '(pj, pi) := e in sub (y pj) (y pi).

(** *** loadGeoData and loadCombinedMapData *)

Inductive CityType : Type :=
| shanghai | hangzhou | huzhou | jiaxing | ningbo | shaoxing | zhoushan.

Definition cityFileMap (city : CityType) : string :=
  match city with
  | shanghai => "shanghai.geoJson"
  | hangzhou => "杭州市.geoJson"
  | huzhou => "湖州市.geoJson"
  | jiaxing => "嘉兴市.geoJson"
  | ningbo => "宁波市.geoJson"
  | shaoxing => "绍兴市.geoJson"
  | zhoushan => "舟山市.geoJson"
  end.

(** What [fetch] answers: [response.ok], and what [response.json()] gives. *)
Record Response : Type := {
  ok : bool;
  json : Promise.Outcome GeoData
}.

(** The server, as a function from the URL fetched. *)
Definition Network : Type := string -> Promise.Outcome Response.

(** The [catch] logs the error and throws it again. *)
Definition loadGeoData (fetch : Network) (city : CityType) : Promise.Outcome GeoData :=
  let fileName := cityFileMap city in
  match fetch ("/data/" ++ fileName)%string with
  | Promise.Rejected error => Promise.Rejected error
  | Promise.Resolved response =>
      if negb (ok response)
      then Promise.Rejected ("Failed to load " ++ fileName)%string
      else json response
  end.

Global Instance CityType_eq_dec : EqDecision CityType.
Proof. solve_decision. Defined.

Global Instance CityType_countable : Countable CityType.
Proof.
  refine (inj_countable'
    (fun c => match c with
              | shanghai => 0 | hangzhou => 1 | huzhou => 2 | jiaxing => 3
              | ningbo => 4 | shaoxing => 5 | zhoushan => 6
              end)%nat
    (fun n => match n with
              | 0 => shanghai | 1 => hangzhou | 2 => huzhou | 3 => jiaxing
              | 4 => ningbo | 5 => shaoxing | _ => zhoushan
              end)%nat _).
  now intros [].
Defined.

(** The object [{ cities, combined }]; [cities] is a JavaScript object used
    as a map from city names. *)
Record CombinedMapData : Type := {
  cities : gmap CityType GeoData;
  combined : GeoData
}.

Definition cityNames : list CityType :=
  [shanghai; hangzhou; huzhou; jiaxing; ningbo; shaoxing; zhoushan].

(** The seven loads run in parallel and end in the order [schedule].  The
    result is [None] while [Promise.all] is pending.  An index out of the
    array would store [undefined]; the model stores nothing there. *)
Definition loadCombinedMapData (fetch : Network) (schedule : list nat)
    : option (Promise.Outcome CombinedMapData) :=
  match Promise.all (map (fun city => loadGeoData fetch city) cityNames) schedule with
  | None => None
  | Some (Promise.Rejected error) => Some (Promise.Rejected error)
  | Some (Promise.Resolved cityDataArray) =>
      let cities :=
        forEach_indexed (fun (cities : gmap CityType GeoData) city index =>
          match cityDataArray !! index with
          | Some cityData => <[city := cityData]> cities
          | None => cities
          end)
          cityNames ∅ in
      let allFeatures := flat_map (fun cityData => features cityData) cityDataArray in
      let combined := {| features := allFeatures |} in
      Some (Promise.Resolved {| cities := cities; combined := combined |})
  end.

(** *** Facts about loops *)

Lemma forEach_ext {A St : Type} (f g : St -> A -> St) (arr : list A) (s : St) :
  (forall s a, f s a = g s a) -> forEach f arr s = forEach g arr s.
Proof.
  intros E. unfold forEach. revert s.
  induction arr as [|a arr IH]; intros s; simpl; [reflexivity|].
  now rewrite E, IH.
Qed.

(** *** projectCoordinate *)

(** In exact arithmetic, for finite coordinates and finite bounds whose
    longitude and latitude spans are not zero: the two formulas as rational
    numbers, a linear map that sends the latitude [maxLat] to y = 0 and the
    latitude [minLat] to y = height.  The source rounds each operation and
    can overflow: [Binary64] has the statement over its numbers. *)
Lemma projectCoordinate_exact (la ln lat0 lat1 lng0 lng1 w h : Q) :
  ~ lng1 == lng0 -> ~ lat1 == lat0 ->
  let b := {| minLat := Fin lat0; maxLat := Fin lat1;
              minLng := Fin lng0; maxLng := Fin lng1;
              width := Fin w; height := Fin h |} in
  let project (lat lng : number) :=
    projectCoordinate {| lat := lat; lng := lng |} b in
  x (project (Fin la) (Fin ln)) = Fin ((ln - lng0) / (lng1 - lng0) * w)
  /\ y (project (Fin la) (Fin ln)) = Fin (h - (la - lat0) / (lat1 - lat0) * h)
  /\ same (y (project (Fin lat1) (Fin ln))) (Fin 0)
  /\ same (y (project (Fin lat0) (Fin ln))) (Fin h).
Proof.
  intros Hlng Hlat b project.
  assert (Dlng : ~ lng1 - lng0 == 0) by (intros E; apply Hlng; lra).
  assert (Dlat : ~ lat1 - lat0 == 0) by (intros E; apply Hlat; lra).
  unfold project, projectCoordinate, b; cbn [x y].
  rewrite !sub_Fin, !div_Fin by assumption.
  repeat split; cbn [mul sub add neg same]; try reflexivity.
  - field_simplify_eq; [ring | assumption].
  - field_simplify_eq; [ring | assumption].
Qed.

(** The point (121, 30) in the box 118..122 by 28..32 lands at (600, 300). *)
Example projectCoordinate_example :
  let p := projectCoordinate {| lat := Fin 30; lng := Fin 121 |}
             {| minLat := Fin 28; maxLat := Fin 32; minLng := Fin 118;
                maxLng := Fin 122; width := Fin 800; height := Fin 600 |} in
  same (x p) (Fin 600) /\ same (y p) (Fin 300).
Proof. split; reflexivity. Qed.

(** Inside the bounds the projection stays inside the pixel box. *)
Lemma projectCoordinate_in_box (la ln lat0 lat1 lng0 lng1 w h : Q) :
  lng0 < lng1 -> lat0 < lat1 -> 0 <= w -> 0 <= h ->
  lng0 <= ln <= lng1 -> lat0 <= la <= lat1 ->
  exists px py : Q,
    projectCoordinate {| lat := Fin la; lng := Fin ln |}
      {| minLat := Fin lat0; maxLat := Fin lat1;
         minLng := Fin lng0; maxLng := Fin lng1;
         width := Fin w; height := Fin h |}
    = {| x := Fin px; y := Fin py |}
    /\ 0 <= px <= w /\ 0 <= py <= h.
Proof.
  intros Hlng Hlat Hw Hh Hln Hla.
  exists ((ln - lng0) / (lng1 - lng0) * w), (h - (la - lat0) / (lat1 - lat0) * h).
  split.
  { unfold projectCoordinate.
    rewrite !sub_Fin, !div_Fin by lra. reflexivity. }
  assert (Hu : 0 <= (ln - lng0) / (lng1 - lng0) <= 1).
  { split.
    - apply Qle_shift_div_l; lra.
    - apply Qle_shift_div_r; lra. }
  assert (Hv : 0 <= (la - lat0) / (lat1 - lat0) <= 1).
  { split.
    - apply Qle_shift_div_l; lra.
    - apply Qle_shift_div_r; lra. }
  split; nra.
Qed.

(** A zero span divides by zero: the result is not a finite number. *)
Example projectCoordinate_zero_span :
  x (projectCoordinate {| lat := Fin 30; lng := Fin 121 |}
       {| minLat := Fin 28; maxLat := Fin 32; minLng := Fin 118;
          maxLng := Fin 118; width := Fin 800; height := Fin 600 |}) = PosInf.
Proof. reflexivity. Qed.

(** *** calculateBounds *)

Lemma forEach_app {A St : Type} (f : St -> A -> St) (l l' : list A) (s : St) :
  forEach f (l ++ l') s = forEach f l' (forEach f l s).
Proof. apply fold_left_app. Qed.

Lemma forEach_concat {A St : Type} (f : St -> A -> St) (ls : list (list A)) (s : St) :
  forEach (fun s l => forEach f l s) ls s = forEach f (concat ls) s.
Proof.
  revert s. induction ls as [|l ls IH]; intros s; [reflexivity|].
  cbn [concat]. rewrite forEach_app, <- IH. reflexivity.
Qed.

Lemma forEach_features (fs : list GeoFeature) (e : Extent) :
  forEach (fun e feature =>
    match geometry feature with
    | MultiPolygon coordinates =>
        forEach (fun e polygon =>
          forEach (fun e ring => forEach extend ring e) polygon e)
          coordinates e
    | Polygon coordinates =>
        forEach (fun e ring => forEach extend ring e) coordinates e
    | OtherGeometry _ => e
    end) fs e
  = forEach extend (concat (map (fun f => geometry_positions (geometry f)) fs)) e.
Proof.
  revert e. induction fs as [|f fs IH]; intros e; [reflexivity|].
  cbn [map concat]. rewrite forEach_app, <- IH.
  unfold forEach at 1. cbn [fold_left]. f_equal.
  destruct (geometry f) as [c|c|t]; cbn [geometry_positions].
  - apply forEach_concat.
  - now rewrite <- !forEach_concat.
  - reflexivity.
Qed.

Lemma forEach_extend (ps : list Position) (e : Extent) :
  forEach extend ps e
  = {| e_minLat := fold_left Math_min (map coord_lat ps) (e_minLat e);
       e_maxLat := fold_left Math_max (map coord_lat ps) (e_maxLat e);
       e_minLng := fold_left Math_min (map coord_lng ps) (e_minLng e);
       e_maxLng := fold_left Math_max (map coord_lng ps) (e_maxLng e) |}.
Proof.
  revert e. induction ps as [|c ps IH]; intros e; [now destruct e|].
  unfold forEach in *. cbn [fold_left map]. now rewrite IH.
Qed.


Definition sample_data : GeoData :=
  {| features :=
       [ {| adcode := Fin 310101; name := "A"; center := Some [Fin 121; Fin 31];
            geometry :=
              MultiPolygon [[[ [Fin 120; Fin 30]; [Fin 122; Fin 31]; [Fin 121; Fin 28] ]]] |};
         {| adcode := Fin 330102; name := "B"; center := None;
            geometry := Polygon [[ [Fin 119; Fin 29]; [Fin 120; Fin 32] ]] |};
         {| adcode := Fin 330103; name := "C"; center := None;
            geometry := OtherGeometry "Point" |} ] |}.


(** Latitudes 28..32 and longitudes 119..122, each widened by a tenth of
    its span. *)
Example calculateBounds_example :
  calculateBounds sample_data None
  = {| minLat := Fin 27.6; maxLat := Fin 32.4;
       minLng := Fin 118.7; maxLng := Fin 122.3;
       width := Fin 800; height := Fin 600 |}.
Proof. reflexivity. Qed.

(** Without any position the bounds stay infinite. *)
Example calculateBounds_empty :
  calculateBounds {| features := [] |} None
  = {| minLat := PosInf; maxLat := NegInf; minLng := PosInf; maxLng := NegInf;
       width := Fin 800; height := Fin 600 |}.
Proof. reflexivity. Qed.

(** *** pointInPolygon *)

(** The loop seen from the vertex list: [prev] is P[j] and [rest] the
    vertices from P[i] on. *)
Fixpoint walk (point : Point) (prev : Point) (rest : list Point)
    (inside : bool) (divisors : list number) : bool * list number :=
  match rest with
  | [] => (inside, divisors)
  | pi :: rest' =>
      if straddles point (prev, pi)
      then walk point pi rest'
             (if lt (x point) (intersection_x point (prev, pi))
              then negb inside else inside)
             (push divisors (edge_divisor (prev, pi)))
      else walk point pi rest' inside divisors
  end.

Fixpoint edges_from (prev : Point) (rest : list Point) : list (Point * Point) :=
  match rest with
  | [] => []
  | pi :: rest' => (prev, pi) :: edges_from pi rest'
  end.

Lemma at_index_nat {A : Type} (arr : list A) (i : nat) :
  at_index arr (Z.of_nat i) = nth_error arr i.
Proof.
  unfold at_index. destruct (Z.ltb_spec (Z.of_nat i) 0); [lia|].
  now rewrite Nat2Z.id.
Qed.

Lemma nth_error_last {A : Type} (l : list A) (a d : A) :
  nth_error (a :: l) (length l) = Some (List.last (a :: l) d).
Proof.
  revert a. induction l as [|b l IH]; intros a; [reflexivity|].
  exact (IH b).
Qed.

Lemma loop_walk (point : Point) (polygon : list Point) (rest : list Point) :
  forall (i : nat) (j : Z) (pj : Point) inside divisors,
    at_index polygon j = Some pj ->
    skipn i polygon = rest ->
    pointInPolygon_loop point polygon (length rest) (Z.of_nat i) j inside divisors
    = Some (walk point pj rest inside divisors).
Proof.
  induction rest as [|pi rest IH]; intros i j pj inside divisors Hj Hi;
    [reflexivity|].
  assert (Hpi : nth_error polygon i = Some pi).
  { rewrite <- (Nat.add_0_r i), <- nth_error_skipn, Hi. reflexivity. }
  assert (Hrest : skipn (S i) polygon = rest).
  { replace (S i) with (1 + i)%nat by lia.
    rewrite <- skipn_skipn, Hi. reflexivity. }
  cbn [length pointInPolygon_loop walk].
  rewrite at_index_nat, Hpi, Hj.
  replace (Z.of_nat i + 1)%Z with (Z.of_nat (S i)) by lia.
  unfold straddles, strict_ne, intersection_x, edge_divisor.
  destruct (xorb (gt (y pi) (y point)) (gt (y pj) (y point)));
    apply IH; try assumption; now rewrite at_index_nat.
Qed.

Lemma walk_edges (point : Point) (rest : list Point) :
  forall prev inside divisors,
    walk point prev rest inside divisors
    = (xorb inside
         (Nat.odd (length (List.filter (crosses point) (edges_from prev rest)))),
       divisors
         ++ map edge_divisor (List.filter (straddles point) (edges_from prev rest))).
Proof.
  induction rest as [|pi rest IH]; intros prev inside divisors.
  - cbn. now rewrite xorb_false_r, app_nil_r.
  - cbn [walk edges_from List.filter].
    replace (crosses point (prev, pi))
      with (straddles point (prev, pi)
            && lt (x point) (intersection_x point (prev, pi))) by reflexivity.
    destruct (straddles point (prev, pi)); cbn [andb].
    + rewrite IH. unfold push. cbn [map]. rewrite <- app_assoc. cbn [app].
      destruct (lt (x point) (intersection_x point (prev, pi))); [|reflexivity].
      cbn [length]. rewrite Nat.odd_succ, <- Nat.negb_odd.
      now destruct inside, (Nat.odd _).
    + apply IH.
Qed.

Lemma edges_edges_from (p0 : Point) (polygon : list Point) :
  edges (p0 :: polygon) = edges_from (List.last (p0 :: polygon) p0) (p0 :: polygon).
Proof.
  unfold edges. generalize (List.last (p0 :: polygon) p0) as prev.
  generalize (p0 :: polygon) as l. clear.
  induction l as [|a l IH]; intros prev; [reflexivity|].
  destruct l as [|b l]; [reflexivity|].
  change (removelast (a :: b :: l)) with (a :: removelast (b :: l)).
  cbn [combine edges_from]. f_equal. apply IH.
Qed.

Lemma pointInPolygon_run_edges (point : Point) (polygon : list Point) :
  pointInPolygon_run point polygon
  = Some (Nat.odd (length (List.filter (crosses point) (edges polygon))),
          map edge_divisor (List.filter (straddles point) (edges polygon))).
Proof.
  unfold pointInPolygon_run.
  destruct polygon as [|p0 polygon]; [reflexivity|].
  rewrite edges_edges_from.
  rewrite (loop_walk point _ (p0 :: polygon) 0 _ (List.last (p0 :: polygon) p0)).
  - now rewrite walk_edges.
  - replace (Z.of_nat (length (p0 :: polygon)) - 1)%Z
      with (Z.of_nat (length polygon)) by (cbn [length]; lia).
    rewrite at_index_nat. apply nth_error_last.
  - reflexivity.
Qed.

(** In the exact model the loop counts the edges (P[j], P[i]) that have
    exactly one endpoint above the point and meet the horizontal line
    through the point strictly to its right, and answers by the parity of
    their number.  The source rounds the abscissa it compares, which can
    change the count: [Binary64] has the loop over binary64 numbers. *)
Lemma pointInPolygon_parity (point : Point) (polygon : list Point) :
  pointInPolygon point polygon
  = Some (Nat.odd (length (List.filter (crosses point) (edges polygon))))
  /\ pointInPolygon point [] = Some false.
Proof.
  split; [|reflexivity].
  unfold pointInPolygon. now rewrite pointInPolygon_run_edges.
Qed.

(** For an edge with finite ends at different heights, [intersection_x] is
    the abscissa of the point of the line through the two ends that is at
    the height of the point. *)
Lemma intersection_x_on_line (px py xi yi xj yj : Q) :
  ~ yj == yi ->
  exists X : Q,
    intersection_x {| x := Fin px; y := Fin py |}
      ({| x := Fin xj; y := Fin yj |}, {| x := Fin xi; y := Fin yi |}) = Fin X
    /\ (X - xi) * (yj - yi) == (xj - xi) * (py - yi).
Proof.
  intros Hy. assert (Hd : ~ yj - yi == 0) by (intros E; apply Hy; lra).
  unfold intersection_x. cbn [x y].
  rewrite !sub_Fin. cbn [mul]. rewrite div_Fin by exact Hd. cbn [add].
  eexists. split; [reflexivity|]. now field.
Qed.

Lemma guard_divisor (yi yj py : number) :
  strict_ne (gt yi py) (gt yj py) = true ->
  ~ same yi yj /\ ~ is_zero (sub yj yi).
Proof.
  unfold strict_ne, gt.
  destruct yi as [| | |a], yj as [| | |b]; cbn [same is_zero sub add neg];
    try (destruct py; cbn; intuition congruence).
  intros G.
  assert (Hne : ~ a == b).
  { intros E. destruct py as [| | |c]; cbn in G; try discriminate.
    rewrite (Qcompare_comp _ _ (Qeq_refl c) _ _ E) in G.
    destruct (c ?= b); discriminate. }
  split; [exact Hne|]. intros E. apply Hne. lra.
Qed.

(** C8.  [pointInPolygon] returns on every point and vertex list: no vertex
    is read out of range.  Each division it evaluates is for an edge whose
    guard [(yi > y) !== (yj > y)] holds; the guard implies that [yi] and
    [yj] differ, so every divisor [yj - yi] is nonzero. *)
Theorem pointInPolygon_total (point : Point) (polygon : list Point) :
  (exists inside divisors,
     pointInPolygon_run point polygon = Some (inside, divisors)
     /\ pointInPolygon point polygon = Some inside
     /\ divisors
        = map edge_divisor (List.filter (straddles point) (edges polygon))
     /\ Forall (fun d => ~ is_zero d) divisors)
  /\ (forall yi yj : number,
        strict_ne (gt yi (y point)) (gt yj (y point)) = true ->
        ~ same yi yj /\ ~ is_zero (sub yj yi)).
Proof.
  split; [|intros yi yj; apply guard_divisor].
  eexists _, _. split; [apply pointInPolygon_run_edges|].
  split; [unfold pointInPolygon; now rewrite pointInPolygon_run_edges|].
  split; [reflexivity|].
  apply List.Forall_map, List.Forall_forall.
  intros [pj pi] Hin. apply List.filter_In in Hin as [_ Hg].
  apply (guard_divisor (y pi) (y pj) (y point)). exact Hg.
Qed.

Definition triangle : list Point :=
  [ {| x := Fin 0; y := Fin 0 |}; {| x := Fin 4; y := Fin 0 |};
    {| x := Fin 0; y := Fin 4 |} ].

Example pointInPolygon_inside :
  pointInPolygon {| x := Fin 1; y := Fin 1 |} triangle = Some true.
Proof. reflexivity. Qed.

Example pointInPolygon_outside :
  pointInPolygon_run {| x := Fin 5; y := Fin 1 |} triangle
  = Some (false, [Fin 4; Fin (-4)]).
Proof. reflexivity. Qed.

Lemma pointInPolygon_total_witness :
  let point := {| x := Fin 5; y := Fin 1 |} in
  strict_ne (gt (Fin 4) (y point)) (gt (Fin 0) (y point)) = true
  /\ pointInPolygon_run point triangle = Some (false, [Fin 4; Fin (-4)])
  /\ ~ same (Fin 4) (Fin 0) /\ ~ is_zero (sub (Fin 0) (Fin 4)).
Proof.
  intros point.
  assert (Hg : strict_ne (gt (Fin 4) (y point)) (gt (Fin 0) (y point)) = true)
    by reflexivity.
  destruct (pointInPolygon_total point triangle) as (_ & H).
  split; [exact Hg | split; [reflexivity|]].
  exact (H (Fin 4) (Fin 0) Hg).
Defined.

(** *** The SVG path builders *)

Lemma append_assoc (a b c : string) : ((a ++ b) ++ c = a ++ (b ++ c))%string.
Proof.
  induction a as [|ch a IH]; [reflexivity|].
  change (String ch ((a ++ b) ++ c) = String ch (a ++ (b ++ c)))%string.
  now f_equal.
Qed.

Lemma forEach_push_map {A B : Type} (g : A -> B) (arr : list A) (acc : list B) :
  forEach (fun acc a => push acc (g a)) arr acc = acc ++ map g arr.
Proof.
  unfold forEach, push. revert acc.
  induction arr as [|a arr IH]; intros acc; simpl.
  - now rewrite app_nil_r.
  - rewrite IH, <- app_assoc. reflexivity.
Qed.

Lemma forEach_forEach_push_map {A B : Type} (g : A -> B)
    (arrs : list (list A)) (acc : list B) :
  forEach (fun acc arr => forEach (fun acc a => push acc (g a)) arr acc) arrs acc
  = acc ++ map g (concat arrs).
Proof.
  unfold forEach at 1. revert acc.
  induction arrs as [|arr arrs IH]; intros acc; simpl.
  - now rewrite app_nil_r.
  - rewrite IH, forEach_push_map, map_app, app_assoc. reflexivity.
Qed.

Lemma join_commands (s : string) (l : list string) :
  join (s :: l ++ ["Z"%string]) " "
  = (s ++ String.concat "" (map (fun t => " " ++ t) l) ++ " Z")%string.
Proof.
  unfold join. revert s.
  induction l as [|t l IH]; intros s.
  - reflexivity.
  - change (String.concat " " (s :: (t :: l) ++ ["Z"%string]))
      with (s ++ " " ++ String.concat " " (t :: l ++ ["Z"%string]))%string.
    rewrite IH. cbn [map String.concat].
    destruct l as [|t' l]; cbn [map String.concat];
      rewrite ?append_assoc; reflexivity.
Qed.

Section SVGPathFacts.

Variable toString : number -> string.
Variable bounds : MapBounds.

Local Open Scope string_scope.

(** The callback of the inner [forEach], as both builders write it. *)
Let command (pathCommands : list string) (coord : Position) (coordIndex : nat) :=
  let lng := coord_lng coord in
  let lat := coord_lat coord in
  let p := projectCoordinate {| lat := lat; lng := lng |} bounds in
  if (coordIndex =? 0)%nat
  then push pathCommands ("M " ++ toString (x p) ++ " " ++ toString (y p))
  else push pathCommands ("L " ++ toString (x p) ++ " " ++ toString (y p)).

Lemma commands_after_first (k : nat) (ring : Ring) (acc : list string) :
  forEach_from command (S k) ring acc
  = app acc (map (fun c => "L " ++ svg_xy toString bounds c) ring).
Proof.
  revert k acc. induction ring as [|c ring IH]; intros k acc; simpl.
  - now rewrite app_nil_r.
  - rewrite IH. unfold command at 1, push, svg_xy. simpl.
    rewrite <- app_assoc. reflexivity.
Qed.

Lemma ring_commands (ring : Ring) :
  join (push (forEach_indexed command ring []) "Z") " "
  = svg_ring toString bounds ring.
Proof.
  destruct ring as [|c0 cs]; [reflexivity|].
  unfold forEach_indexed. cbn [forEach_from].
  rewrite commands_after_first.
  unfold command, push. cbn [Nat.eqb app].
  rewrite join_commands, map_map. reflexivity.
Qed.

Lemma polygonToSVGPath_rings (coordinates : list Ring) :
  polygonToSVGPath toString coordinates bounds
  = join (map (svg_ring toString bounds) coordinates) " ".
Proof.
  unfold polygonToSVGPath.
  rewrite (forEach_ext _ (fun acc r => push acc (svg_ring toString bounds r)))
    by (intros; f_equal; apply ring_commands).
  now rewrite forEach_push_map.
Qed.

Lemma multiPolygonToSVGPath_rings (coordinates : list (list Ring)) :
  multiPolygonToSVGPath toString coordinates bounds
  = join (map (svg_ring toString bounds) (concat coordinates)) " ".
Proof.
  unfold multiPolygonToSVGPath.
  rewrite (forEach_ext _
    (fun acc polygon =>
       forEach (fun acc r => push acc (svg_ring toString bounds r)) polygon acc)).
  - now rewrite forEach_forEach_push_map.
  - intros acc polygon. apply forEach_ext.
    intros; f_equal; apply ring_commands.
Qed.

End SVGPathFacts.

(** C3.  [polygonToSVGPath] maps every ring to [M x0 y0 L x1 y1 ... L xn yn Z],
    each position read as [lng, lat] and projected by [projectCoordinate],
    and joins the ring strings with single spaces; [multiPolygonToSVGPath]
    gives the same ring strings for every ring of every polygon, in input
    order; an empty coordinates array gives the empty string. *)
Theorem svg_path_of_rings (toString : number -> string) (bounds : MapBounds) :
  (forall coordinates : list Ring,
     polygonToSVGPath toString coordinates bounds
     = String.concat " " (map (svg_ring toString bounds) coordinates))
  /\ (forall coordinates : list (list Ring),
        multiPolygonToSVGPath toString coordinates bounds
        = String.concat " " (map (svg_ring toString bounds) (concat coordinates)))
  /\ polygonToSVGPath toString [] bounds = ""%string
  /\ multiPolygonToSVGPath toString [] bounds = ""%string.
Proof.
  repeat split.
  - apply polygonToSVGPath_rings.
  - apply multiPolygonToSVGPath_rings.
Qed.

(** C5.  A Polygon's path is the path of the MultiPolygon made of that one
    polygon, so [geometryToSVGPath] gives the same string for both
    geometries. *)
Theorem polygon_as_multiPolygon (toString : number -> string)
    (c : list Ring) (b : MapBounds) :
  polygonToSVGPath toString c b = multiPolygonToSVGPath toString [c] b
  /\ geometryToSVGPath toString (Polygon c) b
     = geometryToSVGPath toString (MultiPolygon [c]) b.
Proof.
  assert (E : polygonToSVGPath toString c b = multiPolygonToSVGPath toString [c] b).
  { rewrite polygonToSVGPath_rings, multiPolygonToSVGPath_rings.
    simpl. now rewrite app_nil_r. }
  split; [exact E | exact E].
Qed.

(** The conversion to a string on integers, enough to run the builders on
    an example. *)
Definition integer_toString (n : number) : string :=
  match n with
  | NaN => "NaN"
  | PosInf => "Infinity"
  | NegInf => "-Infinity"
  | Fin q => NilZero.string_of_int (Z.to_int (Qfloor q))
  end.

Definition sample_bounds : MapBounds :=
  {| minLat := Fin 28; maxLat := Fin 32; minLng := Fin 118; maxLng := Fin 122;
     width := Fin 800; height := Fin 600 |}.

Example polygonToSVGPath_example :
  polygonToSVGPath integer_toString
    [ [ [Fin 118; Fin 32]; [Fin 122; Fin 32]; [Fin 122; Fin 28] ];
      [ [Fin 119; Fin 30]; [Fin 120; Fin 29] ];
      [] ]
    sample_bounds
  = "M 0 0 L 800 0 L 800 600 Z M 200 300 L 400 450 Z Z"%string.
Proof. reflexivity. Qed.

Example multiPolygonToSVGPath_example :
  multiPolygonToSVGPath integer_toString
    [ [ [ [Fin 118; Fin 32]; [Fin 122; Fin 32]; [Fin 122; Fin 28] ] ];
      [ [ [Fin 119; Fin 30]; [Fin 120; Fin 29] ]; [ [Fin 120; Fin 30] ] ] ]
    sample_bounds
  = "M 0 0 L 800 0 L 800 600 Z M 200 300 L 400 450 Z M 400 300 Z"%string.
Proof. reflexivity. Qed.

(** *** loadCombinedMapData *)

(** C7.  The seven loads run in parallel: they may end in any order.  When
    all of them succeed, the features of the combined collection are the
    concatenation of the cities' features in the order shanghai, hangzhou,
    huzhou, jiaxing, ningbo, shaoxing, zhoushan, whatever the order in which
    the loads ended, and [cities] maps every city to the data loaded for
    it. *)
Theorem loadCombinedMapData_order (fetch : Network) (schedule : list nat)
    (data : CityType -> GeoData) :
  (forall city, loadGeoData fetch city = Promise.Resolved (data city)) ->
  schedule ≡ₚ seq 0 7 ->
  exists r : CombinedMapData,
    loadCombinedMapData fetch schedule = Some (Promise.Resolved r)
    /\ features (combined r)
       = flat_map (fun city => features (data city))
           [shanghai; hangzhou; huzhou; jiaxing; ningbo; shaoxing; zhoushan]
    /\ forall city, cities r !! city = Some (data city).
Proof.
  intros Hload Hperm. unfold loadCombinedMapData.
  assert (E : map (fun city => loadGeoData fetch city) cityNames
              = Promise.Resolved <$> map data cityNames).
  { unfold cityNames. cbn [map fmap list_fmap]. now rewrite !Hload. }
  rewrite E, Promise.all_resolved by exact Hperm.
  eexists. split; [reflexivity|].
  cbn [combined cities features]. split; [reflexivity|].
  intros city. unfold forEach_indexed, cityNames.
  cbn [forEach_from map lookup list_lookup].
  destruct city; by simplify_map_eq.
Qed.

Definition sample_feature (name : string) : GeoFeature :=
  {| adcode := Fin 0; name := name; center := None; geometry := Polygon [] |}.

(** A server that answers every URL with one feature named after it. *)
Definition sample_fetch : Network :=
  fun url =>
    Promise.Resolved
      {| ok := true;
         json := Promise.Resolved {| features := [sample_feature url] |} |}.

Definition sample_city (city : CityType) : GeoData :=
  {| features := [sample_feature ("/data/" ++ cityFileMap city)%string] |}.

Lemma loadCombinedMapData_order_witness :
  exists r : CombinedMapData,
    loadCombinedMapData sample_fetch [6; 5; 4; 3; 2; 1; 0]%nat
    = Some (Promise.Resolved r)
    /\ features (combined r)
       = flat_map (fun city => features (sample_city city))
           [shanghai; hangzhou; huzhou; jiaxing; ningbo; shaoxing; zhoushan]
    /\ forall city, cities r !! city = Some (sample_city city).
Proof.
  apply (loadCombinedMapData_order sample_fetch [6; 5; 4; 3; 2; 1; 0]%nat sample_city).
  - intros []; reflexivity.
  - apply Permutation_sym, (Permutation_rev (seq 0 7)).
Defined.

(** Two orders of arrival give the same result. *)
Example loadCombinedMapData_orders :
  loadCombinedMapData sample_fetch [3; 0; 6; 1; 5; 2; 4]%nat
  = loadCombinedMapData sample_fetch [0; 1; 2; 3; 4; 5; 6]%nat.
Proof. vm_compute. reflexivity. Qed.

(** While a load is still running the result is pending. *)
Example loadCombinedMapData_pending :
  loadCombinedMapData sample_fetch [3; 0; 6; 1; 5; 2]%nat = None.
Proof. reflexivity. Qed.

(** A response that is not ok rejects the whole load. *)
Example loadCombinedMapData_rejected :
  loadCombinedMapData
    (fun url =>
       if String.eqb url "/data/shanghai.geoJson"
       then Promise.Resolved {| ok := false; json := Promise.Rejected "" |}
       else sample_fetch url)
    [3; 0; 6; 1; 5; 2; 4]%nat
  = Some (Promise.Rejected "Failed to load shanghai.geoJson").
Proof. reflexivity. Qed.

End MapUtils.

(** ** SVGMap.tsx *)

Module SVGMap.

Import MapUtils.

Local Open Scope Q_scope.

(** The state of the view that zooming and panning use. *)
Record State : Type := {
  zoomLevel : number;
  panOffset : Point;
  isDragging : bool;
  dragStart : Point
}.

Definition initial : State :=
  {| zoomLevel := Fin 1;
     panOffset := {| x := Fin 0; y := Fin 0 |};
     isDragging := false;
     dragStart := {| x := Fin 0; y := Fin 0 |} |}.

Definition setZoomLevel (f : number -> number) (st : State) : State :=
  {| zoomLevel := f (zoomLevel st); panOffset := panOffset st;
     isDragging := isDragging st; dragStart := dragStart st |}.

Definition setPanOffset (p : Point) (st : State) : State :=
  {| zoomLevel := zoomLevel st; panOffset := p;
     isDragging := isDragging st; dragStart := dragStart st |}.

Definition setIsDragging (b : bool) (st : State) : State :=
  {| zoomLevel := zoomLevel st; panOffset := panOffset st;
     isDragging := b; dragStart := dragStart st |}.

Definition setDragStart (p : Point) (st : State) : State :=
  {| zoomLevel := zoomLevel st; panOffset := panOffset st;
     isDragging := isDragging st; dragStart := p |}.

Definition handleZoomIn (st : State) : State :=
  setZoomLevel (fun prev => Math_min (mul prev (Fin 1.2)) (Fin 3)) st.

Definition handleZoomOut (st : State) : State :=
  setZoomLevel (fun prev => Math_max (div prev (Fin 1.2)) (Fin 0.5)) st.

Definition handleZoomReset (st : State) : State :=
  setPanOffset {| x := Fin 0; y := Fin 0 |} (setZoomLevel (fun _ => Fin 1) st).

Definition handleMouseDown (button : Z) (clientX clientY : number) (st : State) : State :=
  if (button =? 0)%Z
  then setDragStart {| x := sub clientX (x (panOffset st));
                       y := sub clientY (y (panOffset st)) |}
         (setIsDragging true st)
  else st.

Definition handleMouseMove (clientX clientY : number) (st : State) : State :=
  if isDragging st
  then setPanOffset {| x := sub clientX (x (dragStart st));
                       y := sub clientY (y (dragStart st)) |} st
  else st.

Definition handleMouseUp (st : State) : State := setIsDragging false st.

Definition handleWheel (deltaY : number) (st : State) : State :=
  let delta := if gt deltaY (Fin 0) then Fin 0.9 else Fin 1.1 in
  setZoomLevel (fun prev => Math_max (Fin 0.5) (Math_min (Fin 3) (mul prev delta))) st.

(** What the user does to the view. *)
Inductive Event : Type :=
| ZoomIn
| ZoomOut
| ZoomReset
| MouseDown (button : Z) (clientX clientY : number)
| MouseMove (clientX clientY : number)
| MouseUp
| MouseLeave
| Wheel (deltaY : number).

Definition handle (st : State) (e : Event) : State :=
  match e with
  | ZoomIn => handleZoomIn st
  | ZoomOut => handleZoomOut st
  | ZoomReset => handleZoomReset st
  | MouseDown button clientX clientY => handleMouseDown button clientX clientY st
  | MouseMove clientX clientY => handleMouseMove clientX clientY st
  | MouseUp | MouseLeave => handleMouseUp st
  | Wheel deltaY => handleWheel deltaY st
  end.

Definition run (events : list Event) : State := fold_left handle events initial.

(** The zoom level is a finite number between 0.5 and 3. *)
Definition zoom_in_range (z : number) : Prop :=
  match z with
  | Fin q => 0.5 <= q <= 3
  | _ => False
  end.

(** What the view draws for a feature: the path and, when the feature has a
    center, the place of its label.  Styles and handlers are left out. *)
Record Region : Type := {
  d : string;
  regionName : string;
  label : option Point
}.

Section Render.

Variable toString : number -> string.

(** The callback of [mapData.features.map]; [None] is [null]. *)
Definition renderFeature (bounds : MapBounds) (feature : GeoFeature) : option Region :=
  if negb (String.eqb (geometry_type (geometry feature)) "Polygon")
     && negb (String.eqb (geometry_type (geometry feature)) "MultiPolygon")
  then None
  else
    let path := geometryToSVGPath toString (geometry feature) bounds in
    let regionName := name feature in
    Some {| d := path;
            regionName := regionName;
            label :=
              match center feature with
              | Some center =>
                  Some (projectCoordinate
                          {| lat := nth 1 center undefined;
                             lng := nth 0 center undefined |} bounds)
              | None => None
              end |}.

Definition renderFeatures (mapData : GeoData) (bounds : MapBounds)
    : list (option Region) :=
  map (renderFeature bounds) (features mapData).

End Render.

(** *** Facts: the zoom level stays in range *)

Lemma zoomIn_level (st : State) (z : Q) :
  zoomLevel st = Fin z ->
  exists r, zoomLevel (handleZoomIn st) = Fin r /\ r == Qmin (z * 1.2) 3.
Proof.
  intros E. unfold handleZoomIn, setZoomLevel. cbn [zoomLevel]. rewrite E.
  apply Math_min_Fin.
Qed.

Lemma zoomOut_level (st : State) (z : Q) :
  zoomLevel st = Fin z ->
  exists r, zoomLevel (handleZoomOut st) = Fin r /\ r == Qmax (z / 1.2) 0.5.
Proof.
  intros E. unfold handleZoomOut, setZoomLevel. cbn [zoomLevel]. rewrite E.
  rewrite div_Fin by discriminate. apply Math_max_Fin.
Qed.

Lemma wheel_level (st : State) (z : Q) (deltaY : number) :
  zoomLevel st = Fin z ->
  exists r, zoomLevel (handleWheel deltaY st) = Fin r
    /\ r == Qmax 0.5 (Qmin 3 (z * (if gt deltaY (Fin 0) then 0.9 else 1.1))).
Proof.
  intros E. unfold handleWheel, setZoomLevel. cbn [zoomLevel]. rewrite E.
  set (delta := if gt deltaY (Fin 0) then 0.9 else 1.1).
  replace (if gt deltaY (Fin 0) then Fin 0.9 else Fin 1.1) with (Fin delta)
    by (unfold delta; now destruct (gt deltaY (Fin 0))).
  cbn [mul].
  destruct (Math_min_Fin 3 (z * delta)) as (m & -> & Hm).
  destruct (Math_max_Fin 0.5 m) as (r & -> & Hr).
  exists r. split; [reflexivity|]. now rewrite Hr, Hm.
Qed.

Lemma handle_in_range (st : State) (e : Event) :
  zoom_in_range (zoomLevel st) -> zoom_in_range (zoomLevel (handle st e)).
Proof.
  destruct (zoomLevel st) as [| | |z] eqn:E; try easy. cbn [zoom_in_range].
  intros Hz. destruct e; cbn [handle].
  - destruct (zoomIn_level st z E) as (r & -> & Hr). cbn [zoom_in_range].
    destruct (Q.min_spec (z * 1.2) 3) as [[? Hm]|[? Hm]]; rewrite Hm in Hr; lra.
  - destruct (zoomOut_level st z E) as (r & -> & Hr). cbn [zoom_in_range].
    assert (Hd : z / 1.2 == z * (10 # 12)) by (now field).
    destruct (Q.max_spec (z / 1.2) 0.5) as [[? Hm]|[? Hm]]; rewrite Hm in Hr; lra.
  - cbn. lra.
  - unfold handleMouseDown. destruct (button =? 0)%Z; cbn [zoomLevel setDragStart setIsDragging];
      now rewrite E.
  - unfold handleMouseMove. destruct (isDragging st); cbn [zoomLevel setPanOffset];
      now rewrite E.
  - cbn. now rewrite E.
  - cbn. now rewrite E.
  - destruct (wheel_level st z deltaY E) as (r & -> & Hr). cbn [zoom_in_range].
    set (m := Qmin 3 _) in Hr.
    assert (Hm : m <= 3) by apply Q.le_min_l.
    destruct (Q.max_spec 0.5 m) as [[? Hx]|[? Hx]]; rewrite Hx in Hr; lra.
Qed.

(** C6.  The zoom level starts at 1; every operation of the view keeps it
    between 0.5 and 3, so it is in this range after any sequence of
    operations.  Zoom-in replaces z by min(1.2 z, 3), zoom-out by
    max(z / 1.2, 0.5), a wheel step by max(0.5, min(3, 0.9 z)) when
    scrolling down and max(0.5, min(3, 1.1 z)) otherwise; reset sets the
    zoom level to 1 and the pan offset to (0, 0). *)
Theorem zoom_level_invariant :
  zoomLevel initial = Fin 1
  /\ (forall st e, zoom_in_range (zoomLevel st) -> zoom_in_range (zoomLevel (handle st e)))
  /\ (forall events, zoom_in_range (zoomLevel (run events)))
  /\ (forall st z, zoomLevel st = Fin z ->
        same (zoomLevel (handle st ZoomIn)) (Fin (Qmin (z * 1.2) 3))
        /\ same (zoomLevel (handle st ZoomOut)) (Fin (Qmax (z / 1.2) 0.5))
        /\ forall deltaY,
             same (zoomLevel (handle st (Wheel deltaY)))
               (Fin (Qmax 0.5 (Qmin 3 (z * (if gt deltaY (Fin 0) then 0.9 else 1.1))))))
  /\ (forall st,
        zoomLevel (handle st ZoomReset) = Fin 1
        /\ panOffset (handle st ZoomReset) = {| x := Fin 0; y := Fin 0 |}).
Proof.
  split; [reflexivity|].
  split; [exact handle_in_range|].
  split.
  { intros events. unfold run.
    assert (H0 : zoom_in_range (zoomLevel initial)) by (cbn; lra).
    revert H0. generalize initial as st.
    induction events as [|e events IH]; intros st Hst; [exact Hst|].
    cbn [fold_left]. apply IH. now apply handle_in_range. }
  split; [|intros st; split; reflexivity].
  intros st z E. cbn [handle].
  split; [|split].
  - destruct (zoomIn_level st z E) as (r & -> & Hr). exact Hr.
  - destruct (zoomOut_level st z E) as (r & -> & Hr). exact Hr.
  - intros deltaY. destruct (wheel_level st z deltaY E) as (r & -> & Hr). exact Hr.
Qed.

(** *** Facts: features that are not drawn *)

(** C9.  For a geometry whose type is neither Polygon nor MultiPolygon
    [geometryToSVGPath] returns the empty string, and the map view draws
    nothing for a feature with such a geometry. *)
Theorem unsupported_geometry_skipped (toString : number -> string) (bounds : MapBounds) :
  (forall g : Geometry,
     geometry_type g <> "Polygon"%string ->
     geometry_type g <> "MultiPolygon"%string ->
     geometryToSVGPath toString g bounds = ""%string)
  /\ (forall feature : GeoFeature,
        geometry_type (geometry feature) <> "Polygon"%string ->
        geometry_type (geometry feature) <> "MultiPolygon"%string ->
        renderFeature toString bounds feature = None)
  /\ (forall (mapData : GeoData) (i : nat) (feature : GeoFeature),
        features mapData !! i = Some feature ->
        geometry_type (geometry feature) <> "Polygon"%string ->
        geometry_type (geometry feature) <> "MultiPolygon"%string ->
        renderFeatures toString mapData bounds !! i = Some None).
Proof.
  assert (Hskip : forall feature : GeoFeature,
            geometry_type (geometry feature) <> "Polygon"%string ->
            geometry_type (geometry feature) <> "MultiPolygon"%string ->
            renderFeature toString bounds feature = None).
  { intros feature HP HM. unfold renderFeature.
    apply String.eqb_neq in HP, HM. now rewrite HP, HM. }
  split; [|split; [exact Hskip|]].
  - intros [c|c|t] HP HM; [now elim HP | now elim HM | reflexivity].
  - intros mapData i feature Hi HP HM. unfold renderFeatures.
    change (map (renderFeature toString bounds) (features mapData))
      with (renderFeature toString bounds <$> features mapData).
    rewrite list_lookup_fmap, Hi. cbn. now rewrite Hskip.
Qed.

Lemma unsupported_geometry_skipped_witness :
  let feature := {| adcode := Fin 330103; name := "C"; center := None;
                    geometry := OtherGeometry "Point" |} in
  let toString := fun _ : number => "0"%string in
  let bounds := calculateBounds sample_data None in
  geometry_type (geometry feature) <> "Polygon"%string
  /\ geometry_type (geometry feature) <> "MultiPolygon"%string
  /\ geometryToSVGPath toString (geometry feature) bounds = ""%string
  /\ renderFeature toString bounds feature = None
  /\ renderFeatures toString sample_data bounds !! 2%nat = Some None.
Proof.
  intros feature toString bounds.
  destruct (unsupported_geometry_skipped toString bounds) as (Hg & Hf & Hl).
  assert (HP : geometry_type (geometry feature) <> "Polygon"%string) by discriminate.
  assert (HM : geometry_type (geometry feature) <> "MultiPolygon"%string) by discriminate.
  split; [exact HP | split; [exact HM|]].
  split; [exact (Hg _ HP HM) | split; [exact (Hf _ HP HM)|]].
  exact (Hl sample_data 2%nat feature eq_refl HP HM).
Defined.

Lemma zoom_level_invariant_witness :
  zoom_in_range (zoomLevel initial)
  /\ zoom_in_range (zoomLevel (handle initial ZoomIn))
  /\ same (zoomLevel (handle initial ZoomIn)) (Fin (Qmin (1 * 1.2) 3))
  /\ same (zoomLevel (handle initial ZoomOut)) (Fin (Qmax (1 / 1.2) 0.5)).
Proof.
  assert (H1 : zoom_in_range (zoomLevel initial)) by (cbn; lra).
  destruct zoom_level_invariant as (_ & Hstep & _ & Hf & _).
  destruct (Hf initial 1 eq_refl) as (Hin & Hout & _).
  split; [exact H1 | split; [exact (Hstep initial ZoomIn H1)|]].
  split; [exact Hin | exact Hout].
Defined.

(** Three steps in, two wheel steps out, then reset. *)
Example zoom_run :
  same (zoomLevel (run [ZoomIn; ZoomIn; ZoomIn])) (Fin 1.728)
  /\ same (zoomLevel (run [ZoomIn; ZoomIn; ZoomIn; ZoomIn; ZoomIn; ZoomIn; ZoomIn])) (Fin 3)
  /\ same (zoomLevel (run [Wheel (Fin 100); Wheel (Fin 100)])) (Fin 0.81)
  /\ same (zoomLevel (run [ZoomOut; ZoomOut; ZoomOut; ZoomOut])) (Fin 0.5)
  /\ run [ZoomIn; MouseDown 0 (Fin 10) (Fin 10); MouseMove (Fin 30) (Fin 5); ZoomReset]
     = {| zoomLevel := Fin 1; panOffset := {| x := Fin 0; y := Fin 0 |};
          isDragging := true; dragStart := {| x := Fin 10; y := Fin 10 |} |}.
Proof. repeat split. Qed.

End SVGMap.

(** ** SearchBox.tsx: the results kept from a geocoding response *)

Module SearchBox.

Record SearchResult : Type := {
  name : string;
  latitude : number;
  longitude : number;
  country : string;
  admin1 : option string;
  admin2 : option string
}.

(** [location.admin1 === s], where a missing [admin1] is [undefined]. *)
Definition admin1_is (location : SearchResult) (s : string) : bool :=
  match admin1 location with
  | Some a => String.eqb a s
  | None => false
  end.

Definition isTarget (location : SearchResult) : bool :=
  admin1_is location "Shanghai" || admin1_is location "Zhejiang".

(** The comparison function passed to [sort]. *)
Definition compareFn (a b : SearchResult) : Z :=
  let aIsTarget := isTarget a in
  let bIsTarget := isTarget b in
  if aIsTarget && negb bIsTarget then (-1)%Z
  else if negb aIsTarget && bIsTarget then 1%Z
  else 0%Z.

(** [Array.prototype.sort] is a stable sort.  With a comparison function
    that is consistent, as this one is, every stable sort gives the same
    array; the model is insertion sort, where an element moves behind
    another only when it compares greater. *)
Fixpoint insert {A : Type} (cmp : A -> A -> Z) (a : A) (sorted : list A) : list A :=
  match sorted with
  | [] => [a]
  | b :: sorted' =>
      if (0 <? cmp a b)%Z then b :: insert cmp a sorted' else a :: b :: sorted'
  end.

Definition sort {A : Type} (cmp : A -> A -> Z) (arr : list A) : list A :=
  fold_right (insert cmp) [] arr.

(** [arr.slice(0, n)] *)
Definition slice_from_0 {A : Type} (n : nat) (arr : list A) : list A := firstn n arr.

(** The value of [filteredResults] for the field [data.results] of the
    response, [None] when the response has no such field. *)
Definition filteredResults (results : option (list SearchResult)) : list SearchResult :=
  let locations := default [] results in
  slice_from_0 8
    (sort compareFn
       (List.filter (fun location => String.eqb (country location) "China") locations)).

(** *** Facts *)

Lemma insert_target (a : SearchResult) (l : list SearchResult) :
  isTarget a = true -> insert compareFn a l = a :: l.
Proof.
  intros Ha. destruct l as [|b l]; [reflexivity|].
  cbn [insert]. unfold compareFn. rewrite Ha.
  now destruct (isTarget b).
Qed.

Lemma insert_other (a : SearchResult) (ts ns : list SearchResult) :
  isTarget a = false ->
  Forall (fun b => isTarget b = true) ts ->
  Forall (fun b => isTarget b = false) ns ->
  insert compareFn a (ts ++ ns) = ts ++ a :: ns.
Proof.
  intros Ha Hts Hns. induction Hts as [|b ts Hb Hts IH].
  - destruct Hns as [|b ns Hb Hns]; [reflexivity|].
    cbn [app insert]. unfold compareFn. now rewrite Ha, Hb.
  - cbn [app insert]. unfold compareFn at 1. rewrite Ha, Hb. cbn.
    now rewrite IH.
Qed.

(** Sorting by [compareFn] puts the Shanghai and Zhejiang entries first and
    keeps the order of the entries inside each of the two groups. *)
Lemma sort_compareFn (l : list SearchResult) :
  sort compareFn l
  = List.filter isTarget l ++ List.filter (fun b => negb (isTarget b)) l.
Proof.
  induction l as [|a l IH]; [reflexivity|].
  unfold sort in *. cbn [fold_right List.filter]. rewrite IH.
  destruct (isTarget a) eqn:Ha; cbn [negb].
  - now apply insert_target.
  - apply insert_other; [exact Ha | |]; apply List.Forall_forall;
      intros b Hb; apply List.filter_In in Hb as [_ Hb];
      [exact Hb | now destruct (isTarget b)].
Qed.

(** C10.  The result list kept from a geocoding response holds only
    locations whose country is China, at most 8 of them, and every entry
    whose admin1 is Shanghai or Zhejiang comes before every entry whose
    admin1 is neither: the list is the Chinese locations of the response,
    those of Shanghai and Zhejiang first, each group in the order of the
    response, cut to its first 8 entries. *)
Theorem filteredResults_spec (results : option (list SearchResult)) :
  let r := filteredResults results in
  let chinese :=
    List.filter (fun location => String.eqb (country location) "China")
      (default [] results) in
  (forall location, In location r -> country location = "China"%string)
  /\ (length r <= 8)%nat
  /\ (forall (i j : nat) (a b : SearchResult),
        r !! i = Some a -> r !! j = Some b ->
        isTarget a = true -> isTarget b = false -> (i < j)%nat)
  /\ r = firstn 8 (List.filter isTarget chinese
                    ++ List.filter (fun b => negb (isTarget b)) chinese).
Proof.
  intros r chinese.
  assert (Hr : r = firstn 8 (List.filter isTarget chinese
                             ++ List.filter (fun b => negb (isTarget b)) chinese)).
  { unfold r, filteredResults, slice_from_0. now rewrite sort_compareFn. }
  split; [|split; [|split; [|exact Hr]]].
  - intros location Hin. rewrite Hr in Hin.
    assert (Hin' : In location (List.filter isTarget chinese
                     ++ List.filter (fun b => negb (isTarget b)) chinese)).
    { rewrite <- (firstn_skipn 8). apply in_or_app. now left. }
    clear Hin. apply in_app_or in Hin'. rename Hin' into Hin.
    assert (Hc : In location chinese).
    { destruct Hin as [H|H]; apply List.filter_In in H; tauto. }
    apply List.filter_In in Hc as [_ Hc]. now apply String.eqb_eq.
  - rewrite Hr. rewrite length_firstn. lia.
  - intros i j a b Hi Hj Ha Hb. rewrite Hr in Hi, Hj.
    set (ts := List.filter isTarget chinese) in *.
    set (ns := List.filter (fun b => negb (isTarget b)) chinese) in *.
    apply lookup_take_Some in Hi as [Hi _], Hj as [Hj _].
    destruct (Nat.lt_ge_cases i (length ts)) as [Hit|Hit].
    + destruct (Nat.lt_ge_cases j (length ts)) as [Hjt|Hjt]; [|lia].
      rewrite lookup_app_l in Hj by exact Hjt.
      apply list_elem_of_lookup_2, list_elem_of_In, List.filter_In in Hj as [_ Hj].
      congruence.
    + rewrite lookup_app_r in Hi by exact Hit.
      apply list_elem_of_lookup_2, list_elem_of_In, List.filter_In in Hi as [_ Hi].
      rewrite Ha in Hi. discriminate.
Qed.

Local Open Scope string_scope.

Definition place (name country : string) (admin1 : option string) : SearchResult :=
  {| name := name; latitude := Fin 30; longitude := Fin 120;
     country := country; admin1 := admin1; admin2 := None |}.

Example filteredResults_example :
  filteredResults
    (Some [ place "a" "China" (Some "Jiangsu"); place "b" "Japan" (Some "Shanghai");
            place "c" "China" (Some "Zhejiang"); place "d" "China" None;
            place "e" "China" (Some "Shanghai") ])
  = [ place "c" "China" (Some "Zhejiang"); place "e" "China" (Some "Shanghai");
      place "a" "China" (Some "Jiangsu"); place "d" "China" None ].
Proof. reflexivity. Qed.

Lemma filteredResults_spec_witness :
  let results :=
    Some [ place "a" "China" (Some "Jiangsu"); place "c" "China" (Some "Zhejiang") ] in
  filteredResults results !! 0%nat = Some (place "c" "China" (Some "Zhejiang"))
  /\ filteredResults results !! 1%nat = Some (place "a" "China" (Some "Jiangsu"))
  /\ (0 < 1)%nat.
Proof.
  intros results.
  destruct (filteredResults_spec results) as (_ & _ & Horder & _).
  split; [reflexivity | split; [reflexivity|]].
  exact (Horder 0%nat 1%nat (place "c" "China" (Some "Zhejiang"))
           (place "a" "China" (Some "Jiangsu")) eq_refl eq_refl eq_refl eq_refl).
Defined.

Example filteredResults_missing : filteredResults None = [].
Proof. reflexivity. Qed.

End SearchBox.

(** * The source's numbers: binary64

    [projectCoordinate] and [pointInPolygon] once more, over the binary64
    numbers of the source: Rocq's primitive floats, whose operations are the
    IEEE 754 ones that JavaScript uses, rounding and overflow included. *)

From Stdlib Require Floats.

Module Binary64.

Import Floats.

Local Open Scope float_scope.

Definition number : Type := float.

(** [a < b] and [a > b]: false as soon as one side is [NaN]. *)
Definition lt (a b : number) : bool := (a <? b).
Definition gt (a b : number) : bool := (b <? a).

(** The value of a binary64 number in the exact model. *)
Definition exact (a : number) : JS.number :=
  match Prim2SF a with
  | S754_zero _ => JS.Fin 0
  | S754_infinity false => JS.PosInf
  | S754_infinity true => JS.NegInf
  | S754_nan => JS.NaN
  | S754_finite s m e =>
      JS.Fin (inject_Z (if s then Z.neg m else Z.pos m) * 2 ^ e)%Q
  end.

(** A number that is neither an infinity nor [NaN]. *)
Definition finite (a : number) : bool :=
  match Prim2SF a with
  | S754_zero _ | S754_finite _ _ _ => true
  | _ => false
  end.

(** A finite number other than 0 and -0. *)
Definition finite_nonzero (a : number) : bool :=
  match Prim2SF a with
  | S754_finite _ _ _ => true
  | _ => false
  end.

Record Coordinates : Type := { lat : number; lng : number }.

Record MapBounds : Type := {
  minLat : number;
  maxLat : number;
  minLng : number;
  maxLng : number;
  width : number;
  height : number
}.

Record Point : Type := { x : number; y : number }.

Definition projectCoordinate (coord : Coordinates) (bounds : MapBounds) : Point :=
  let '{| lat := lat; lng := lng |} := coord in
  let '{| minLat := minLat; maxLat := maxLat; minLng := minLng;
          maxLng := maxLng; width := width; height := height |} := bounds in
  let x := ((lng - minLng) / (maxLng - minLng)) * width in
  let y := height - ((lat - minLat) / (maxLat - minLat)) * height in
  {| x := x; y := y |}.



(** The [for] loop of [pointInPolygon], as in [MapUtils.pointInPolygon_loop]:
    [remaining] is [polygon.length - i], and the result is [None] when the
    body reads [.x] of [undefined]. *)
Fixpoint pointInPolygon_loop (point : Point) (polygon : list Point)
    (remaining : nat) (i j : Z) (inside : bool) : option bool :=
  match remaining with
  | O => Some inside
  | S remaining' =>
      match MapUtils.at_index polygon i, MapUtils.at_index polygon j with
      | Some pi, Some pj =>
          let xi := x pi in
          let yi := y pi in
          let xj := x pj in
          let yj := y pj in
          let inside :=
            if JS.strict_ne (gt yi (y point)) (gt yj (y point))
               && lt (x point) ((xj - xi) * (y point - yi) / (yj - yi) + xi)
            then negb inside else inside in
          pointInPolygon_loop point polygon remaining' (i + 1)%Z i inside
      | _, _ => None
      end
  end.

Definition pointInPolygon (point : Point) (polygon : list Point) : option bool :=
  pointInPolygon_loop point polygon (length polygon)
    0%Z (Z.of_nat (length polygon) - 1)%Z false.

(** The edges of a vertex list, each as (P[j], P[i]), the closing edge
    first. *)
Definition edges (polygon : list Point) : list (Point * Point) :=
  match polygon with
  | [] => []
  | p0 :: _ => combine (List.last polygon p0 :: removelast polygon) polygon
  end.

Definition straddles (point : Point) (e : Point * Point) : bool :=
  let '(pj, pi) := e in
  xorb (gt (y pi) (y point)) (gt (y pj) (y point)).

(** The abscissa the code computes for the meeting of the edge and the
    horizontal line through the point, each operation rounded. *)
Definition computed_intersection_x (point : Point) (e : Point * Point) : number :=
  let '(pj, pi) := e in
  (x pj - x pi) * (y point - y pi) / (y pj - y pi) + x pi.

(** The edge is counted by the code. *)
Definition counted (point : Point) (e : Point * Point) : bool :=
  straddles point e && lt (x point) (computed_intersection_x point e).

(** A point and a vertex list in the exact model. *)
Definition exact_point (p : Point) : MapUtils.Point :=
  {| MapUtils.x := exact (x p); MapUtils.y := exact (y p) |}.

(** The number of edges that, in exact arithmetic, have one endpoint above
    the point and meet the horizontal line through it strictly to its
    right. *)
Definition crossings_to_the_right (point : Point) (polygon : list Point) : nat :=
  length (List.filter (MapUtils.crosses (exact_point point))
            (MapUtils.edges (map exact_point polygon))).

(** *** Facts about binary64 operations

    From the specification of the primitive operations ([Prim2SF] and the
    operations of [SpecFloat]). *)

Lemma sub_self (a : number) : finite a = true -> a - a = 0.
Proof.
  intros H. apply Prim2SF_inj. rewrite sub_spec. unfold finite in H.
  destruct (Prim2SF a) as [s|s| |s m e]; try discriminate.
  - now destruct s.
  - unfold SF64sub, SFsub. cbv zeta. rewrite Z.sub_diag. reflexivity.
Qed.





Ltac by_cases :=
  intros; cbn in *;
  repeat match goal with b : bool |- _ => destruct b end;
  cbn in *; first [reflexivity | discriminate | assumption].

Lemma zero_div (z d : number) :
  (z =? 0) = true -> finite_nonzero d = true -> (z / d =? 0) = true.
Proof.
  rewrite !eqb_spec, div_spec. unfold finite_nonzero.
  change (Prim2SF 0) with (S754_zero false).
  destruct (Prim2SF z) as [sz|sz| |sz mz ez], (Prim2SF d) as [s|s| |s m e];
    by_cases.
Qed.

Lemma zero_mul (z h : number) :
  (z =? 0) = true -> finite h = true -> (z * h =? 0) = true.
Proof.
  rewrite !eqb_spec, mul_spec. unfold finite.
  change (Prim2SF 0) with (S754_zero false).
  destruct (Prim2SF z) as [sz|sz| |sz mz ez], (Prim2SF h) as [s|s| |s m e];
    by_cases.
Qed.

Lemma eqb_refl (h : number) : finite h = true -> (h =? h) = true.
Proof.
  rewrite eqb_spec. unfold finite, SFeqb, SFcompare.
  destruct (Prim2SF h) as [s|s| |s m e]; try discriminate; try reflexivity.
  intros _. rewrite Z.compare_refl.
  destruct s; rewrite ?Pos.compare_cont_refl; reflexivity.
Qed.


Lemma zero_add (z a : number) :
  (z =? 0) = true -> finite a = true -> (z + a =? a) = true.
Proof.
  intros Hz Ha. pose proof (eqb_refl a Ha) as Hr. revert Hz Ha Hr.
  rewrite !eqb_spec, add_spec. unfold finite.
  change (Prim2SF 0) with (S754_zero false).
  destruct (Prim2SF z) as [sz|sz| |sz mz ez], (Prim2SF a) as [s|s| |s m e];
    try by_cases.
Qed.

(** The place of a finite number in the order: its sign, then its exponent,
    then its mantissa, the last two reversed for a negative number. *)
Definition rank (a : number) : Z * Z * Z :=
  match Prim2SF a with
  | S754_finite false m e => (1, e, Z.pos m)%Z
  | S754_finite true m e => (-1, - e, Z.neg m)%Z
  | _ => (0, 0, 0)%Z
  end.

Definition before (r r' : Z * Z * Z) : Prop :=
  let '(s, e, m) := r in
  let '(s', e', m') := r' in
  (s < s' \/ (s = s' /\ (e < e' \/ (e = e' /\ m < m'))))%Z.

Ltac by_rank :=
  match goal with
  | |- context [Pos.compare_cont Eq ?m ?m'] =>
      change (Pos.compare_cont Eq m m') with (Pos.compare m m');
      match goal with
      | |- context [Z.compare ?e ?e'] =>
          destruct (Z.compare_spec e e'), (Pos.compare_spec m m')
      end
  end;
  cbn [CompOpp]; split;
  first [ discriminate | lia | reflexivity
        | intros [=]; lia | intros _; f_equal; [f_equal|]; lia ].

Lemma ltb_rank (a b : number) :
  finite a = true -> finite b = true ->
  ((a <? b) = true <-> before (rank a) (rank b)).
Proof.
  rewrite ltb_spec. unfold finite, rank, SFltb, SFcompare, before.
  destruct (Prim2SF a) as [sa|sa| |sa ma ea], (Prim2SF b) as [sb|sb| |sb mb eb];
    try discriminate; intros _ _;
    repeat match goal with s : bool |- _ => destruct s end;
    first [ split; [discriminate | lia] | split; [lia | reflexivity] | by_rank ].
Qed.

Lemma leb_rank (a b : number) :
  finite a = true -> finite b = true ->
  ((a <=? b) = true <-> ~ before (rank b) (rank a)).
Proof.
  rewrite leb_spec. unfold finite, rank, SFleb, SFcompare, before.
  destruct (Prim2SF a) as [sa|sa| |sa ma ea], (Prim2SF b) as [sb|sb| |sb mb eb];
    try discriminate; intros _ _;
    repeat match goal with s : bool |- _ => destruct s end;
    first [ split; [discriminate | lia] | split; [lia | reflexivity] | by_rank ].
Qed.

Lemma eqb_rank (a b : number) :
  finite a = true -> finite b = true ->
  ((a =? b) = true <-> rank a = rank b).
Proof.
  rewrite eqb_spec. unfold finite, rank, SFeqb, SFcompare.
  destruct (Prim2SF a) as [sa|sa| |sa ma ea], (Prim2SF b) as [sb|sb| |sb mb eb];
    try discriminate; intros _ _;
    repeat match goal with s : bool |- _ => destruct s end;
    first [ split; [discriminate | intros [=]; lia] | split; reflexivity | by_rank ].
Qed.

(** A comparison does not tell apart two numbers that [==] holds equal. *)
Lemma ltb_eqb (p a b : number) :
  finite p = true -> finite a = true -> finite b = true ->
  (a =? b) = true -> (p <? a) = (p <? b).
Proof.
  intros Hp Ha Hb E. apply (eqb_rank a b Ha Hb) in E.
  pose proof (ltb_rank p a Hp Ha) as H1. pose proof (ltb_rank p b Hp Hb) as H2.
  rewrite E in H1.
  destruct (p <? a), (p <? b); try reflexivity.
  - symmetry. apply H2, H1. reflexivity.
  - apply H1, H2. reflexivity.
Qed.

Lemma zero_add_finite (z a : number) :
  (z =? 0) = true -> finite a = true -> finite (z + a) = true.
Proof.
  rewrite eqb_spec. unfold finite. rewrite add_spec.
  change (Prim2SF 0) with (S754_zero false).
  destruct (Prim2SF z) as [sz|sz| |sz mz ez], (Prim2SF a) as [s|s| |s m e];
    by_cases.
Qed.

(** *** projectCoordinate *)




(** Away from overflow the two embeddings agree up to rounding: the point
    (121, 30) in the box 118..122 by 28..32 lands at (600, 300) here as in
    [MapUtils.projectCoordinate_example]. *)
Example projectCoordinate_example64 :
  projectCoordinate {| lat := 30; lng := 121 |}
    {| minLat := 28; maxLat := 32; minLng := 118; maxLng := 122;
       width := 800; height := 600 |}
  = {| x := 600; y := 300 |}.
Proof. vm_compute. reflexivity. Qed.

(** *** pointInPolygon *)

Fixpoint walk (point : Point) (prev : Point) (rest : list Point) (inside : bool)
    : bool :=
  match rest with
  | [] => inside
  | pi :: rest' =>
      walk point pi rest' (if counted point (prev, pi) then negb inside else inside)
  end.

Fixpoint edges_from (prev : Point) (rest : list Point) : list (Point * Point) :=
  match rest with
  | [] => []
  | pi :: rest' => (prev, pi) :: edges_from pi rest'
  end.

Lemma loop_is_walk (point : Point) (polygon : list Point) (rest : list Point) :
  forall (i : nat) (j : Z) (pj : Point) inside,
    MapUtils.at_index polygon j = Some pj ->
    skipn i polygon = rest ->
    pointInPolygon_loop point polygon (length rest) (Z.of_nat i) j inside
    = Some (walk point pj rest inside).
Proof.
  induction rest as [|pi rest IH]; intros i j pj inside Hj Hi; [reflexivity|].
  assert (Hpi : nth_error polygon i = Some pi).
  { rewrite <- (Nat.add_0_r i), <- nth_error_skipn, Hi. reflexivity. }
  assert (Hrest : skipn (S i) polygon = rest).
  { replace (S i) with (1 + i)%nat by lia.
    rewrite <- skipn_skipn, Hi. reflexivity. }
  cbn [length pointInPolygon_loop walk].
  rewrite MapUtils.at_index_nat, Hpi, Hj.
  replace (Z.of_nat i + 1)%Z with (Z.of_nat (S i)) by lia.
  apply IH; [now rewrite MapUtils.at_index_nat | assumption].
Qed.

Lemma walk_parity (point : Point) (rest : list Point) :
  forall prev inside,
    walk point prev rest inside
    = xorb inside
        (Nat.odd (length (List.filter (counted point) (edges_from prev rest)))).
Proof.
  induction rest as [|pi rest IH]; intros prev inside.
  - cbn. now rewrite xorb_false_r.
  - cbn [walk edges_from List.filter]. rewrite IH.
    destruct (counted point (prev, pi)); [|reflexivity].
    cbn [length]. rewrite Nat.odd_succ, <- Nat.negb_odd.
    now destruct inside, (Nat.odd _).
Qed.

Lemma edges_as_edges_from (p0 : Point) (polygon : list Point) :
  edges (p0 :: polygon) = edges_from (List.last (p0 :: polygon) p0) (p0 :: polygon).
Proof.
  unfold edges. generalize (List.last (p0 :: polygon) p0) as prev.
  generalize (p0 :: polygon) as l. clear.
  induction l as [|a l IH]; intros prev; [reflexivity|].
  destruct l as [|b l]; [reflexivity|].
  change (removelast (a :: b :: l)) with (a :: removelast (b :: l)).
  cbn [combine edges_from]. f_equal. apply IH.
Qed.

(** C4.  Over binary64 numbers, [pointInPolygon] returns true exactly when
    the number of edges (P[j], P[i]) of the vertex list, the closing edge
    from the last vertex to the first included, that have exactly one
    endpoint above the point and whose intersection abscissa as the code
    computes it, (xj - xi) * (y - yi) / (yj - yi) + xi with every operation
    rounded, is greater than the point's is odd; on the empty vertex list it
    returns false. *)
Theorem pointInPolygon_counted_parity (point : Point) (polygon : list Point) :
  pointInPolygon point polygon
  = Some (Nat.odd (length (List.filter (counted point) (edges polygon))))
  /\ pointInPolygon point [] = Some false.
Proof.
  split; [|reflexivity].
  unfold pointInPolygon.
  destruct polygon as [|p0 polygon]; [reflexivity|].
  rewrite edges_as_edges_from.
  rewrite (loop_is_walk point _ (p0 :: polygon) 0 _ (List.last (p0 :: polygon) p0)).
  - now rewrite walk_parity.
  - replace (Z.of_nat (length (p0 :: polygon)) - 1)%Z
      with (Z.of_nat (length polygon)) by (cbn [length]; lia).
    rewrite MapUtils.at_index_nat. apply MapUtils.nth_error_last.
  - reflexivity.
Qed.

(** The point (fl(1/3), 1) and the triangle (1, 3), (0, 0), (-1, 3).  The
    edge from (1, 3) to (0, 0) meets the line y = 1 at x = 1/3 exactly,
    which is to the right of fl(1/3) < 1/3, and no other edge meets the line
    to the right of the point: one crossing.  The code computes
    (1 - 0) * (1 - 0) / (3 - 0) + 0 = fl(1/3) for that edge, which is not
    greater than the point's abscissa, counts no edge and returns false. *)
Lemma pointInPolygon_rounding :
  let point := {| x := 1 / 3; y := 1 |} in
  let polygon := [ {| x := 1; y := 3 |}; {| x := 0; y := 0 |}; {| x := -1; y := 3 |} ] in
  pointInPolygon point polygon = Some false
  /\ crossings_to_the_right point polygon = 1%nat
  /\ List.filter (counted point) (edges polygon) = [].
Proof. vm_compute. repeat split. Qed.

(** *** An upright rectangle *)

Definition pt (a b : number) : Point := {| x := a; y := b |}.

Lemma loop_counts_edges (point : Point) (polygon : list Point) :
  pointInPolygon point polygon
  = Some (Nat.odd (length (List.filter (counted point) (edges polygon)))).
Proof.
  unfold pointInPolygon.
  destruct polygon as [|p0 polygon]; [reflexivity|].
  rewrite edges_as_edges_from.
  rewrite (loop_is_walk point _ (p0 :: polygon) 0 _ (List.last (p0 :: polygon) p0)).
  - now rewrite walk_parity.
  - replace (Z.of_nat (length (p0 :: polygon)) - 1)%Z
      with (Z.of_nat (length polygon)) by (cbn [length]; lia).
    rewrite MapUtils.at_index_nat. apply MapUtils.nth_error_last.
  - reflexivity.
Qed.

Lemma odd_filter_cons {A : Type} (f : A -> bool) (a : A) (l : list A) :
  Nat.odd (length (List.filter f (a :: l)))
  = xorb (f a) (Nat.odd (length (List.filter f l))).
Proof.
  cbn [List.filter]. destruct (f a); cbn [length xorb]; [|reflexivity].
  rewrite Nat.odd_succ, <- Nat.negb_odd. reflexivity.
Qed.

(** For a vertical edge the difference xj - xi is 0, and so are its product
    with a finite y - yi and the quotient by a divisor that is not zero: the
    abscissa that the code compares is xi. *)
Lemma vertical_edge (p xi dy d : number) :
  finite p = true -> finite xi = true -> finite dy = true ->
  finite_nonzero d = true ->
  (p <? (xi - xi) * dy / d + xi) = (p <? xi).
Proof.
  intros Hp Hxi Hdy Hd. rewrite (sub_self xi Hxi).
  assert (Hz : (0 * dy / d =? 0) = true).
  { apply zero_div; [|exact Hd]. apply zero_mul; [reflexivity | exact Hdy]. }
  apply ltb_eqb; [exact Hp | now apply zero_add_finite | exact Hxi |].
  now apply zero_add.
Qed.

Ltac rank_fact H :=
  match type of H with
  | true = true <-> ?P =>
      let F := fresh "F" in assert (F : P) by (apply H; reflexivity); clear H
  | false = true <-> ?P =>
      let F := fresh "F" in
      assert (F : ~ P) by (let HP := fresh in intros HP; apply H in HP; discriminate HP);
      clear H
  end.

(** On an upright rectangle with finite corners, for a finite point, the
    answer is true exactly for the points from the lower and left edges in,
    up to but not on the upper and right ones, as soon as the differences
    that the loop computes do not overflow and the heights differ. *)
Theorem pointInPolygon_rectangle (x0 x1 y0 y1 px py : number) :
  forallb finite [x0; x1; y0; y1; px; py] = true ->
  (x0 <? x1) = true -> (y0 <? y1) = true ->
  forallb finite [py - y0; py - y1] = true ->
  forallb finite_nonzero [y1 - y0; y0 - y1] = true ->
  pointInPolygon (pt px py) [pt x0 y0; pt x1 y0; pt x1 y1; pt x0 y1]
  = Some ((x0 <=? px) && (px <? x1) && (y0 <=? py) && (py <? y1)).
Proof.
  cbn [forallb]. rewrite !andb_true_iff.
  intros (Fx0 & Fx1 & Fy0 & Fy1 & Fpx & Fpy & _) Hx Hy (Fd0 & Fd1 & _) (Fs0 & Fs1 & _).
  rewrite loop_counts_edges. f_equal.
  cbn [edges List.last removelast combine].
  rewrite !odd_filter_cons. cbn [List.filter length Nat.odd].
  unfold counted, straddles, computed_intersection_x, pt, gt, lt. cbn [x y].
  rewrite !xorb_nilpotent. cbn [andb xorb]. rewrite xorb_false_r.
  rewrite (vertical_edge px x0 (py - y0) (y1 - y0)) by assumption.
  rewrite (vertical_edge px x1 (py - y1) (y0 - y1)) by assumption.
  pose proof (ltb_rank x0 x1 Fx0 Fx1) as Rx. rewrite Hx in Rx.
  pose proof (ltb_rank y0 y1 Fy0 Fy1) as Ry. rewrite Hy in Ry.
  pose proof (ltb_rank py y0 Fpy Fy0) as R1.
  pose proof (ltb_rank py y1 Fpy Fy1) as R2.
  pose proof (ltb_rank px x0 Fpx Fx0) as R3.
  pose proof (ltb_rank px x1 Fpx Fx1) as R4.
  pose proof (leb_rank x0 px Fx0 Fpx) as R5.
  pose proof (leb_rank y0 py Fy0 Fpy) as R6.
  destruct (rank x0) as [[sx0 ex0] mx0], (rank x1) as [[sx1 ex1] mx1],
           (rank y0) as [[sy0 ey0] my0], (rank y1) as [[sy1 ey1] my1],
           (rank px) as [[sp ep] mp], (rank py) as [[sq eq] mq].
  unfold before in *.
  destruct (py <? y0), (py <? y1), (px <? x0), (px <? x1), (x0 <=? px), (y0 <=? py);
    rank_fact Rx; rank_fact Ry; rank_fact R1; rank_fact R2; rank_fact R3;
    rank_fact R4; rank_fact R5; rank_fact R6;
    cbn [andb xorb]; first [reflexivity | exfalso; lia].
Qed.

Lemma pointInPolygon_rectangle_witness :
  pointInPolygon (pt 1 1) [pt 0 0; pt 4 0; pt 4 3; pt 0 3] = Some true.
Proof.
  exact (pointInPolygon_rectangle 0 4 0 3 1 1 eq_refl eq_refl eq_refl eq_refl eq_refl).
Defined.

End Binary64.

(** ** map-utils.ts: the bounds and the projection together *)

Module Viewport.

Import MapUtils.

Local Open Scope Q_scope.

(** The bounds [calculateBounds] returns, from the running minima and maxima
    of its loops. *)
Lemma calculateBounds_folds (geoData : GeoData) (padding : option number) :
  let p := default (Fin 0.1) padding in
  let lats := map coord_lat (positions geoData) in
  let lngs := map coord_lng (positions geoData) in
  let lat_min := fold_left Math_min lats PosInf in
  let lat_max := fold_left Math_max lats NegInf in
  let lng_min := fold_left Math_min lngs PosInf in
  let lng_max := fold_left Math_max lngs NegInf in
  calculateBounds geoData padding
  = {| minLat := sub lat_min (mul (sub lat_max lat_min) p);
       maxLat := add lat_max (mul (sub lat_max lat_min) p);
       minLng := sub lng_min (mul (sub lng_max lng_min) p);
       maxLng := add lng_max (mul (sub lng_max lng_min) p);
       width := Fin 800;
       height := Fin 600 |}.
Proof.
  cbv zeta. unfold calculateBounds. cbv zeta.
  rewrite forEach_features, forEach_extend. reflexivity.
Qed.

(** Over finite numbers, not all the same, the minimum and the maximum are
    finite and apart. *)
Lemma finite_extremes (l : list number) (a b : number) :
  Forall finite l -> In a l -> In b l -> ~ same a b ->
  exists lo hi : Q,
    fold_left Math_min l PosInf = Fin lo
    /\ fold_left Math_max l NegInf = Fin hi
    /\ lo < hi
    /\ forall q, In (Fin q) l -> lo <= q <= hi.
Proof.
  intros Hfin Ha Hb Hab.
  assert (Hn : Forall (fun c => c <> NaN) l).
  { eapply List.Forall_impl; [|exact Hfin]. intros c Hc ->. exact Hc. }
  assert (Hne : l <> []) by (intros ->; exact Ha).
  destruct (minimum_from_Infinity l Hn) as (Hlo & _ & Hlo_in).
  destruct (maximum_from_minus_Infinity l Hn) as (Hhi & _ & Hhi_in).
  specialize (Hlo_in Hne). specialize (Hhi_in Hne).
  pose proof (proj1 (List.Forall_forall _ _) Hfin) as Hall.
  destruct (fold_left Math_min l PosInf) as [| | |lo] eqn:Elo;
    try (now apply Hall in Hlo_in).
  destruct (fold_left Math_max l NegInf) as [| | |hi] eqn:Ehi;
    try (now apply Hall in Hhi_in).
  exists lo, hi. split; [reflexivity | split; [reflexivity|]].
  assert (Hq : forall q, In (Fin q) l -> lo <= q <= hi).
  { intros q Hin. split; [exact (Hlo _ Hin) | exact (Hhi _ Hin)]. }
  split; [|exact Hq].
  destruct a as [| | |qa]; try (now apply Hall in Ha).
  destruct b as [| | |qb]; try (now apply Hall in Hb).
  cbn [same] in Hab. pose proof (Hq qa Ha). pose proof (Hq qb Hb).
  destruct (Qlt_le_dec lo hi) as [|Hle]; [assumption|].
  exfalso. apply Hab. lra.
Qed.

(** Both coordinates are finite and of moderate magnitude. *)
Definition moderate_position (c : Position) : Prop :=
  moderate_number (coord_lng c) /\ moderate_number (coord_lat c).

(** Every position of the data lands inside the 800 by 600 box of the bounds
    computed from the data, as soon as the data has two different latitudes
    and two different longitudes and the padding is not negative.  The
    coordinates and the padding are of moderate magnitude: the source then
    computes spans, paddings and bounds without overflow, and the rounding
    of its operations, being monotone, keeps the quotients between 0 and
    1. *)
Theorem positions_project_in_box (geoData : GeoData) (padding : option number)
    (p : Q) (c1 c2 c3 c4 : Position) :
  Forall moderate_position (positions geoData) ->
  default (Fin 0.1) padding = Fin p -> 0 <= p -> moderate p ->
  In c1 (positions geoData) -> In c2 (positions geoData) ->
  ~ same (coord_lat c1) (coord_lat c2) ->
  In c3 (positions geoData) -> In c4 (positions geoData) ->
  ~ same (coord_lng c3) (coord_lng c4) ->
  forall c, In c (positions geoData) ->
    exists px py : Q,
      projectCoordinate {| lat := coord_lat c; lng := coord_lng c |}
        (calculateBounds geoData padding)
      = {| x := Fin px; y := Fin py |}
      /\ 0 <= px <= 800 /\ 0 <= py <= 600.
Proof.
  intros Hmod Hp Hp0 _ H1 H2 Hlat H3 H4 Hlng c Hc.
  assert (Hfin : Forall finite_position (positions geoData)).
  { eapply List.Forall_impl; [|exact Hmod]. intros a [Hx Hy].
    split; [destruct (coord_lng a) | destruct (coord_lat a)]; easy. }
  assert (Flat : Forall finite (map coord_lat (positions geoData))).
  { apply List.Forall_map. eapply List.Forall_impl; [|exact Hfin]. now intros ? []. }
  assert (Flng : Forall finite (map coord_lng (positions geoData))).
  { apply List.Forall_map. eapply List.Forall_impl; [|exact Hfin]. now intros ? []. }
  destruct (finite_extremes _ (coord_lat c1) (coord_lat c2) Flat)
    as (lat0 & lat1 & Elat0 & Elat1 & Hlt_lat & Hin_lat);
    [now apply in_map | now apply in_map | exact Hlat |].
  destruct (finite_extremes _ (coord_lng c3) (coord_lng c4) Flng)
    as (lng0 & lng1 & Elng0 & Elng1 & Hlt_lng & Hin_lng);
    [now apply in_map | now apply in_map | exact Hlng |].
  pose proof (calculateBounds_folds geoData padding) as E. cbv zeta in E.
  rewrite E, Hp, Elat0, Elat1, Elng0, Elng1. clear E.
  pose proof (proj1 (List.Forall_forall _ _) Hfin c Hc) as [Fx Fy].
  destruct (coord_lng c) as [| | |ln] eqn:Eln; try easy.
  destruct (coord_lat c) as [| | |la] eqn:Ela; try easy.
  assert (Hla : lat0 <= la <= lat1).
  { apply Hin_lat. rewrite <- Ela. now apply in_map. }
  assert (Hln : lng0 <= ln <= lng1).
  { apply Hin_lng. rewrite <- Eln. now apply in_map. }
  cbn [sub add neg mul].
  apply projectCoordinate_in_box; try lra; nra.
Qed.

Lemma positions_project_in_box_witness :
  exists px py : Q,
    projectCoordinate {| lat := Fin 30; lng := Fin 120 |}
      (calculateBounds sample_data None)
    = {| x := Fin px; y := Fin py |}
    /\ 0 <= px <= 800 /\ 0 <= py <= 600.
Proof.
  apply (positions_project_in_box sample_data None 0.1
           [Fin 120; Fin 30] [Fin 122; Fin 31]
           [Fin 120; Fin 30] [Fin 122; Fin 31]
           ltac:(repeat constructor; apply Qle_bool_iff; vm_compute; reflexivity)
           eq_refl ltac:(discriminate)
           ltac:(split; apply Qle_bool_iff; vm_compute; reflexivity)
           ltac:(cbn; tauto) ltac:(cbn; tauto) ltac:(cbn; discriminate)
           ltac:(cbn; tauto) ltac:(cbn; tauto) ltac:(cbn; discriminate)
           [Fin 120; Fin 30] ltac:(cbn; tauto)).
Defined.

Lemma projectCoordinate_in_box_witness :
  exists px py : Q,
    projectCoordinate {| lat := Fin 30; lng := Fin 121 |} sample_bounds
    = {| x := Fin px; y := Fin py |}
    /\ 0 <= px <= 800 /\ 0 <= py <= 600.
Proof.
  apply (projectCoordinate_in_box 30 121 28 32 118 122 800 600);
    (split; discriminate) || (cbn; discriminate) || reflexivity.
Defined.

(** When the data has no position at all (no feature, or only features
    that are not drawn), the bounds are infinite and every projection with
    them is [NaN]. *)
Theorem no_position_bounds (geoData : GeoData) (padding : option number) (p : Q) :
  positions geoData = [] ->
  default (Fin 0.1) padding = Fin p -> 0 < p ->
  calculateBounds geoData padding
  = {| minLat := PosInf; maxLat := NegInf; minLng := PosInf; maxLng := NegInf;
       width := Fin 800; height := Fin 600 |}
  /\ forall coord : Coordinates,
       projectCoordinate coord (calculateBounds geoData padding)
       = {| x := NaN; y := NaN |}.
Proof.
  intros Hnil Hp Hp0.
  pose proof (calculateBounds_folds geoData padding) as E. cbv zeta in E.
  rewrite Hnil, Hp in E. cbn [map fold_left sub add neg mul] in E.
  assert (Es : signed_inf (- p) = NegInf).
  { unfold signed_inf. assert (H : - p < 0) by lra.
    now rewrite (proj1 (Qlt_alt (- p) 0) H). }
  rewrite Es in E. cbn [add neg] in E.
  rewrite E. split; [reflexivity|].
  intros [la ln]. unfold projectCoordinate.
  destruct la, ln; reflexivity.
Qed.

Lemma no_position_bounds_witness :
  calculateBounds {| features := [sample_feature "a"] |} None
  = {| minLat := PosInf; maxLat := NegInf; minLng := PosInf; maxLng := NegInf;
       width := Fin 800; height := Fin 600 |}
  /\ forall coord : Coordinates,
       projectCoordinate coord
         (calculateBounds {| features := [sample_feature "a"] |} None)
       = {| x := NaN; y := NaN |}.
Proof.
  apply (no_position_bounds {| features := [sample_feature "a"] |} None 0.1
           eq_refl eq_refl eq_refl).
Defined.

(** When all the positions of the data are at one latitude, the latitude
    span of the bounds is zero and no latitude projects to a finite y: the
    division by the span gives an infinity or [NaN]. *)
Theorem one_latitude_bounds (geoData : GeoData) (padding : option number)
    (p a : Q) :
  positions geoData <> [] ->
  (forall c, In c (positions geoData) -> same (coord_lat c) (Fin a)) ->
  default (Fin 0.1) padding = Fin p ->
  let bounds := calculateBounds geoData padding in
  (exists lo hi : Q, minLat bounds = Fin lo /\ maxLat bounds = Fin hi /\ lo == hi)
  /\ forall coord : Coordinates, ~ finite (y (projectCoordinate coord bounds)).
Proof.
  intros Hne Hall Hp bounds.
  set (lats := map coord_lat (positions geoData)).
  assert (Hsame : forall b, In b lats -> same b (Fin a)).
  { intros b Hb. apply in_map_iff in Hb as (c & <- & Hc). now apply Hall. }
  assert (Hn : Forall (fun c => c <> NaN) lats).
  { apply List.Forall_forall. intros b Hb ->. exact (Hsame _ Hb). }
  assert (Hlne : lats <> []).
  { unfold lats. destruct (positions geoData); [now elim Hne | discriminate]. }
  destruct (minimum_from_Infinity lats Hn) as (_ & _ & Hlo).
  destruct (maximum_from_minus_Infinity lats Hn) as (_ & _ & Hhi).
  pose proof (Hsame _ (Hlo Hlne)) as Hlo'. pose proof (Hsame _ (Hhi Hlne)) as Hhi'.
  pose proof (calculateBounds_folds geoData padding) as E. cbv zeta in E.
  fold lats in E. rewrite Hp in E.
  destruct (fold_left Math_min lats PosInf) as [| | |lo]; try easy.
  destruct (fold_left Math_max lats NegInf) as [| | |hi]; try easy.
  cbn [same] in Hlo', Hhi'. cbn [sub add neg mul] in E.
  unfold bounds. rewrite E. cbn [minLat maxLat].
  assert (E0 : (hi + - lo) * p == 0).
  { assert (H0 : hi + - lo == 0) by lra. rewrite H0. ring. }
  split.
  { eexists _, _. split; [reflexivity | split; [reflexivity|]]. lra. }
  intros [la ln]. unfold projectCoordinate. cbn [y].
  assert (Hz : Qeq_bool (hi + (hi + - lo) * p + - (lo + - ((hi + - lo) * p))) 0 = true).
  { apply Qeq_bool_iff. lra. }
  destruct la as [| | |q]; cbn [sub add neg div mul]; try easy.
  - destruct (Qle_bool 0 _); cbn; easy.
  - destruct (Qle_bool 0 _); cbn; easy.
  - rewrite Hz. unfold signed_inf. destruct (_ ?= 0); cbn; easy.
Qed.

Lemma one_latitude_bounds_witness :
  let geoData :=
    {| features := [ {| adcode := Fin 0; name := "a"; center := None;
                        geometry := Polygon [[ [Fin 120; Fin 30] ]] |} ] |} in
  (exists lo hi : Q,
     minLat (calculateBounds geoData None) = Fin lo
     /\ maxLat (calculateBounds geoData None) = Fin hi /\ lo == hi)
  /\ forall coord : Coordinates,
       ~ finite (y (projectCoordinate coord (calculateBounds geoData None))).
Proof.
  intros geoData.
  apply (one_latitude_bounds geoData None 0.1 30).
  - discriminate.
  - intros c [<-|[]]. reflexivity.
  - reflexivity.
Defined.

End Viewport.

(** ** map-utils.ts: what [pointInPolygon] answers *)

Module HitTest.

Import MapUtils.

Local Open Scope Q_scope.

(** A point with finite coordinates. *)
Definition pt (a b : Q) : Point := {| x := Fin a; y := Fin b |}.

Lemma pointInPolygon_count (point : Point) (polygon : list Point) :
  pointInPolygon point polygon
  = Some (Nat.odd (length (List.filter (crosses point) (edges polygon)))).
Proof. unfold pointInPolygon. now rewrite pointInPolygon_run_edges. Qed.

Lemma odd_count_cons {A : Type} (f : A -> bool) (a : A) (l : list A) :
  Nat.odd (length (List.filter f (a :: l)))
  = xorb (f a) (Nat.odd (length (List.filter f l))).
Proof.
  cbn [List.filter]. destruct (f a); cbn [length xorb]; [|reflexivity].
  rewrite Nat.odd_succ, <- Nat.negb_odd. reflexivity.
Qed.

(** *** The answer does not depend on where the vertex list starts *)

Lemma last_cons {A : Type} (a d : A) (l : list A) :
  List.last (a :: l) d = List.last l a.
Proof.
  revert a d. induction l as [|b l IH]; intros a d; [reflexivity|].
  change (List.last (a :: b :: l) d) with (List.last (b :: l) d).
  now rewrite !(IH b).
Qed.

Lemma edges_cons (a : Point) (l : list Point) :
  edges (a :: l) = (List.last l a, a) :: edges_from a l.
Proof. rewrite edges_edges_from. cbn [edges_from]. now rewrite last_cons. Qed.

Lemma edges_from_snoc (l : list Point) (prev x : Point) :
  edges_from prev (l ++ [x]) = edges_from prev l ++ [(List.last l prev, x)].
Proof.
  revert prev. induction l as [|b l IH]; intros prev; [reflexivity|].
  cbn [app edges_from]. rewrite IH, last_cons. reflexivity.
Qed.

Lemma edges_snoc (a : Point) (l : list Point) :
  edges (l ++ [a]) ≡ₚ edges (a :: l).
Proof.
  rewrite edges_cons. destruct l as [|b l]; [reflexivity|].
  cbn [app]. rewrite edges_cons, edges_from_snoc, last_last.
  rewrite <- (last_cons b a l).
  change ((a, b) :: edges_from b l ++ [(List.last (b :: l) a, a)])
    with (edges_from a (b :: l) ++ [(List.last (b :: l) a, a)]).
  symmetry. apply Permutation_cons_append.
Qed.

Lemma count_Permutation {A : Type} (f : A -> bool) (l l' : list A) :
  l ≡ₚ l' -> length (List.filter f l) = length (List.filter f l').
Proof.
  induction 1 as [|a l l' _ IH|a b l|l l' l'' _ IH1 _ IH2]; cbn [List.filter].
  - reflexivity.
  - destruct (f a); cbn [length]; now rewrite IH.
  - destruct (f a), (f b); reflexivity.
  - now rewrite IH1.
Qed.

Lemma pointInPolygon_rotate1 (point a : Point) (l : list Point) :
  pointInPolygon point (l ++ [a]) = pointInPolygon point (a :: l).
Proof.
  rewrite !pointInPolygon_count. do 2 f_equal.
  apply count_Permutation, edges_snoc.
Qed.

(** Starting the vertex list at another vertex of the same cycle gives the
    same answer. *)
Theorem pointInPolygon_rotate (point : Point) (l1 l2 : list Point) :
  pointInPolygon point (l1 ++ l2) = pointInPolygon point (l2 ++ l1).
Proof.
  revert l2. induction l1 as [|a l1 IH]; intros l2.
  - now rewrite app_nil_r.
  - cbn [app]. rewrite <- pointInPolygon_rotate1, <- app_assoc, IH.
    rewrite <- app_assoc. reflexivity.
Qed.

(** *** A point with every vertex on one side of its horizontal line *)

Lemma last_In {A : Type} (a d : A) (l : list A) : In (List.last (a :: l) d) (a :: l).
Proof.
  revert a. induction l as [|b l IH]; intros a; [now left|].
  right. exact (IH b).
Qed.

Lemma edges_In (l : list Point) (pj pi : Point) :
  In (pj, pi) (edges l) -> In pj l /\ In pi l.
Proof.
  destruct l as [|a l]; [easy|]. unfold edges. intros Hin. split.
  - apply in_combine_l in Hin. destruct Hin as [<-|Hin].
    + apply last_In.
    + revert Hin. generalize (a :: l). clear.
      induction l as [|b l IH]; [easy|]. destruct l as [|c l]; [easy|].
      change (removelast (b :: c :: l)) with (b :: removelast (c :: l)).
      intros [<-|H]; [now left | right; now apply IH].
  - now apply in_combine_r in Hin.
Qed.

(** When the test [yi > y] gives the same answer at every vertex (all the
    vertices above the point, or none of them: a point over or under the
    polygon, a vertex list on one horizontal line, a single vertex), the
    answer is false.  No arithmetic is evaluated, only comparisons: this
    holds of any numbers, [NaN] included. *)
Theorem pointInPolygon_one_side (point : Point) (polygon : list Point) :
  (forall a b, In a polygon -> In b polygon ->
     gt (y a) (y point) = gt (y b) (y point)) ->
  pointInPolygon point polygon = Some false.
Proof.
  intros Hside. rewrite pointInPolygon_count. do 2 f_equal.
  assert (E : List.filter (crosses point) (edges polygon) = []).
  { rewrite (List.filter_ext_in (crosses point) (fun _ => false));
      [apply List.filter_false|].
    intros [pj pi] Hin. apply edges_In in Hin as [Hj Hi].
    unfold crosses, straddles. rewrite (Hside pi pj Hi Hj).
    now rewrite xorb_nilpotent. }
  now rewrite E.
Qed.

Lemma pointInPolygon_one_side_witness :
  pointInPolygon (pt 1 5) triangle = Some false
  /\ pointInPolygon (pt 1 1) [pt 0 0] = Some false.
Proof.
  split.
  - apply (pointInPolygon_one_side (pt 1 5) triangle).
    intros a b Ha Hb. cbn [triangle In] in Ha, Hb.
    repeat (destruct Ha as [<-|Ha]; [|]); repeat (destruct Hb as [<-|Hb]; [|]);
      first [reflexivity | contradiction].
  - apply (pointInPolygon_one_side (pt 1 1) [pt 0 0]).
    intros a b [<-|[]] [<-|[]]. reflexivity.
Defined.

End HitTest.

(** ** map-utils.ts: the shape of the paths *)

Module PathShape.

Import MapUtils.

(** The rings a geometry is drawn from. *)
Definition geometry_rings (g : Geometry) : list Ring :=
  match g with
  | Polygon coordinates => coordinates
  | MultiPolygon coordinates => concat coordinates
  | OtherGeometry _ => []
  end.

Section Shape.

Variable toString : number -> string.
Variable bounds : MapBounds.

Lemma svg_ring_not_empty (ring : Ring) :
  svg_ring toString bounds ring <> ""%string.
Proof. destruct ring; discriminate. Qed.

Lemma join_not_empty (s : string) (l : list string) :
  s <> ""%string -> join (s :: l) " " <> ""%string.
Proof.
  intros Hs. unfold join. destruct l as [|t l]; [exact Hs|].
  cbn [String.concat]. destruct s; [now elim Hs | discriminate].
Qed.

(** [geometryToSVGPath] returns the empty string only for a geometry
    without any ring: an empty Polygon, a MultiPolygon whose polygons are
    all empty, or a geometry of another type. *)
Theorem geometryToSVGPath_empty (g : Geometry) :
  geometryToSVGPath toString g bounds = ""%string <-> geometry_rings g = [].
Proof.
  assert (H : forall rings : list Ring,
            join (map (svg_ring toString bounds) rings) " " = ""%string
            <-> rings = []).
  { intros [|r rings]; [easy|]. split; [|discriminate].
    intros E. exfalso. revert E. cbn [map].
    apply join_not_empty, svg_ring_not_empty. }
  destruct g as [c|c|t]; cbn [geometryToSVGPath geometry_rings].
  - rewrite polygonToSVGPath_rings. apply H.
  - rewrite multiPolygonToSVGPath_rings. apply H.
  - easy.
Qed.

(** A MultiPolygon is drawn as the Polygon made of all the rings of all its
    polygons, in order. *)
Theorem multiPolygon_flattened (coordinates : list (list Ring)) :
  multiPolygonToSVGPath toString coordinates bounds
  = polygonToSVGPath toString (concat coordinates) bounds.
Proof. now rewrite multiPolygonToSVGPath_rings, polygonToSVGPath_rings. Qed.

End Shape.

End PathShape.

(** ** Promise.all: pending and rejected *)

Module Settling.

Import Promise.

(** Once settled, [Promise.all] keeps its outcome. *)
Lemma all_settled_stays {A : Type} (outcomes : list (Outcome A)) (rest : list nat)
    (st : AllState A) (o : Outcome (list A)) :
  settled st = Some o ->
  settled (fold_left (all_step outcomes) rest st) = Some o.
Proof.
  revert st. induction rest as [|k rest IH]; intros st Hs; [exact Hs|].
  cbn [fold_left]. apply IH. unfold all_step. now rewrite Hs.
Qed.

(** It takes as many arrivals as there are promises to resolve. *)
Lemma all_not_resolved {A : Type} (outcomes : list (Outcome A)) (rest : list nat) :
  forall st : AllState A,
    (settled st = None /\ length rest < remainingElementsCount st)
    \/ (exists reason, settled st = Some (Rejected reason)) ->
    forall vs, settled (fold_left (all_step outcomes) rest st) <> Some (Resolved vs).
Proof.
  induction rest as [|k rest IH]; intros st Hst vs.
  - cbn [fold_left]. destruct Hst as [[-> _]|[r ->]]; discriminate.
  - cbn [fold_left]. apply IH. destruct Hst as [[Hs Hlen]|[r Hs]].
    + unfold all_step. rewrite Hs. cbn [length] in Hlen.
      destruct (outcomes !! k) as [[v|r]|]; cbn [settled remainingElementsCount].
      * left. split; [|lia].
        destruct (Nat.eqb_spec (remainingElementsCount st - 1) 0); [lia | reflexivity].
      * right. now exists r.
      * left. split; [exact Hs | lia].
    + right. exists r. unfold all_step. now rewrite Hs.
Qed.

Lemma all_never_early {A : Type} (outcomes : list (Outcome A)) (schedule : list nat) :
  length schedule < length outcomes ->
  forall vs, all outcomes schedule <> Some (Resolved vs).
Proof.
  intros Hlen vs. unfold all. apply all_not_resolved. left. cbn.
  split; [|exact Hlen].
  destruct (Nat.eqb_spec (length outcomes) 0); [lia | reflexivity].
Qed.

(** While values arrive and fewer have arrived than are awaited, the whole
    stays pending. *)
Lemma all_pending {A : Type} (outcomes : list (Outcome A)) (pre : list nat) :
  forall st : AllState A,
    settled st = None ->
    (forall k, k ∈ pre -> exists v, outcomes !! k = Some (Resolved v)) ->
    length pre < remainingElementsCount st ->
    settled (fold_left (all_step outcomes) pre st) = None.
Proof.
  induction pre as [|k pre IH]; intros st Hs Hres Hlen; [exact Hs|].
  cbn [fold_left]. cbn [length] in Hlen.
  destruct (Hres k) as [v Hv]; [apply list_elem_of_here|].
  apply IH.
  - unfold all_step. rewrite Hs, Hv. cbn [settled].
    destruct (Nat.eqb_spec (remainingElementsCount st - 1) 0); [lia | reflexivity].
  - intros j Hj. apply Hres. now apply list_elem_of_further.
  - unfold all_step. rewrite Hs, Hv. cbn [remainingElementsCount]. lia.
Qed.

(** The first promise to be rejected, in the order of arrival. *)
Lemma first_rejected {A : Type} (outcomes : list (Outcome A)) (schedule : list nat) :
  (forall k, k ∈ schedule -> k < length outcomes) ->
  (exists k reason, k ∈ schedule /\ outcomes !! k = Some (Rejected reason)) ->
  exists pre k post reason,
    schedule = pre ++ k :: post
    /\ outcomes !! k = Some (Rejected reason)
    /\ forall j, j ∈ pre -> exists v, outcomes !! j = Some (Resolved v).
Proof.
  induction schedule as [|i schedule IH]; intros Hlt (k & r & Hk & Hr).
  { now apply elem_of_nil in Hk. }
  destruct (lookup_lt_is_Some_2 outcomes i) as [[v|r'] Hi];
    [apply Hlt, list_elem_of_here | |].
  - destruct IH as (pre & k' & post & r' & -> & Hk' & Hpre).
    + intros j Hj. apply Hlt. now apply list_elem_of_further.
    + exists k, r. split; [|exact Hr].
      apply elem_of_cons in Hk as [->|Hk]; [congruence | exact Hk].
    + exists (i :: pre), k', post, r'. split; [reflexivity | split; [exact Hk'|]].
      intros j Hj. apply elem_of_cons in Hj as [->|Hj]; [now exists v | now apply Hpre].
  - exists [], i, schedule, r'. split; [reflexivity | split; [exact Hi|]].
    intros j Hj. now apply elem_of_nil in Hj.
Qed.

(** When every promise has ended and one of them was rejected,
    [Promise.all] is rejected, with the reason of the first rejection to
    arrive. *)
Lemma all_rejected {A : Type} (outcomes : list (Outcome A)) (schedule : list nat) :
  schedule ≡ₚ seq 0 (length outcomes) ->
  (exists k reason, outcomes !! k = Some (Rejected reason)) ->
  exists pre k post reason,
    schedule = pre ++ k :: post
    /\ outcomes !! k = Some (Rejected reason)
    /\ (forall j, j ∈ pre -> exists v, outcomes !! j = Some (Resolved v))
    /\ all outcomes schedule = Some (Rejected reason).
Proof.
  intros Hperm (k0 & r0 & Hk0).
  destruct (first_rejected outcomes schedule) as (pre & k & post & r & E & Hk & Hpre).
  - intros j Hj. rewrite Hperm in Hj. apply elem_of_seq in Hj. lia.
  - exists k0, r0. split; [|exact Hk0].
    rewrite Hperm. apply elem_of_seq.
    split; [lia|]. apply lookup_lt_is_Some. eauto.
  - exists pre, k, post, r. split; [exact E | split; [exact Hk | split; [exact Hpre|]]].
    assert (Hlen : length pre < length outcomes).
    { apply Permutation_length in Hperm.
      rewrite length_seq, E, length_app in Hperm. cbn [length] in Hperm. lia. }
    unfold all. rewrite E, fold_left_app. cbn [fold_left].
    apply all_settled_stays.
    assert (Hs : settled (fold_left (all_step outcomes) pre
                            (all_start (length outcomes))) = None).
    { apply all_pending; [|exact Hpre | exact Hlen]. cbn.
      destruct (Nat.eqb_spec (length outcomes) 0); [lia | reflexivity]. }
    unfold all_step at 1. now rewrite Hs, Hk.
Qed.

End Settling.

(** ** map-utils.ts: loads that fail or have not ended *)

Module Loading.

Import MapUtils.

(** Before the seven loads have ended the combined load is pending or
    already failed: it never gives data. *)
Theorem loadCombinedMapData_not_early (fetch : Network) (schedule : list nat) :
  (length schedule < 7)%nat ->
  loadCombinedMapData fetch schedule = None
  \/ exists reason, loadCombinedMapData fetch schedule = Some (Promise.Rejected reason).
Proof.
  intros Hlen. unfold loadCombinedMapData.
  pose proof (Settling.all_never_early
                (map (fun city => loadGeoData fetch city) cityNames) schedule Hlen) as H.
  destruct (Promise.all _ schedule) as [[vs|e]|].
  - now elim (H vs).
  - right. now exists e.
  - now left.
Qed.

Lemma loadCombinedMapData_not_early_witness :
  loadCombinedMapData sample_fetch [3; 0; 6; 1; 5; 2]%nat = None
  \/ exists reason,
       loadCombinedMapData sample_fetch [3; 0; 6; 1; 5; 2]%nat
       = Some (Promise.Rejected reason).
Proof.
  apply (loadCombinedMapData_not_early sample_fetch [3; 0; 6; 1; 5; 2]%nat).
  cbn [length]. lia.
Defined.

(** When one of the seven loads fails, the combined load fails too, with the
    error of the failed load that ended first: no partial map is returned. *)
Theorem loadCombinedMapData_failure (fetch : Network) (schedule : list nat)
    (city : CityType) (error : string) :
  schedule ≡ₚ seq 0 7 ->
  loadGeoData fetch city = Promise.Rejected error ->
  exists (pre post : list nat) (k : nat) (failed : CityType) (reason : string),
    schedule = pre ++ k :: post
    /\ cityNames !! k = Some failed
    /\ loadGeoData fetch failed = Promise.Rejected reason
    /\ (forall j c, j ∈ pre -> cityNames !! j = Some c ->
          exists data, loadGeoData fetch c = Promise.Resolved data)
    /\ loadCombinedMapData fetch schedule = Some (Promise.Rejected reason).
Proof.
  intros Hperm Hfail.
  set (outcomes := map (fun city => loadGeoData fetch city) cityNames).
  destruct (Settling.all_rejected outcomes schedule Hperm)
    as (pre & k & post & reason & E & Hk & Hpre & Hall).
  { exists (match city with
            | shanghai => 0 | hangzhou => 1 | huzhou => 2 | jiaxing => 3
            | ningbo => 4 | shaoxing => 5 | zhoushan => 6
            end)%nat, error.
    unfold outcomes, cityNames. destruct city; cbn; now rewrite Hfail. }
  assert (Hlook : forall j (o : Promise.Outcome GeoData),
            outcomes !! j = Some o ->
            exists c, cityNames !! j = Some c /\ loadGeoData fetch c = o).
  { intros j o Hj. unfold outcomes in Hj.
    change (map (fun city => loadGeoData fetch city) cityNames)
      with ((fun city => loadGeoData fetch city) <$> cityNames) in Hj.
    rewrite list_lookup_fmap in Hj.
    destruct (cityNames !! j) as [c|]; [|discriminate].
    exists c. split; [reflexivity|]. now injection Hj. }
  destruct (Hlook k _ Hk) as (failed & Hc & Hf).
  exists pre, post, k, failed, reason.
  split; [exact E | split; [exact Hc | split; [exact Hf | split]]].
  - intros j c Hj Hjc. destruct (Hpre j Hj) as [v Hv].
    destruct (Hlook j _ Hv) as (c' & Hc' & Hv'). exists v. congruence.
  - unfold loadCombinedMapData. fold outcomes. now rewrite Hall.
Qed.

(** A server on which the load of Jiaxing fails. *)
Definition jiaxing_down : Network :=
  fun url =>
    if String.eqb url ("/data/" ++ cityFileMap jiaxing)%string
    then Promise.Rejected "offline"
    else sample_fetch url.

Lemma loadCombinedMapData_failure_witness :
  exists (pre post : list nat) (k : nat) (failed : CityType) (reason : string),
    [6; 5; 4; 3; 2; 1; 0]%nat = pre ++ k :: post
    /\ cityNames !! k = Some failed
    /\ loadGeoData jiaxing_down failed = Promise.Rejected reason
    /\ (forall j c, j ∈ pre -> cityNames !! j = Some c ->
          exists data, loadGeoData jiaxing_down c = Promise.Resolved data)
    /\ loadCombinedMapData jiaxing_down [6; 5; 4; 3; 2; 1; 0]%nat
       = Some (Promise.Rejected reason).
Proof.
  apply (loadCombinedMapData_failure jiaxing_down [6; 5; 4; 3; 2; 1; 0]%nat
           jiaxing "offline").
  - apply Permutation_sym, (Permutation_rev (seq 0 7)).
  - reflexivity.
Defined.

End Loading.

(** ** lib/api/weather.ts *)

Module Weather.

Import Promise.

Local Open Scope string_scope.

Section API.

(** The forecast the service answers; the code passes it on unread. *)
Variable WeatherData : Type.

(** [n.toString()], and the encoding [URLSearchParams] applies to a value. *)
Variable toString : number -> string.
Variable encode : string -> string.

Definition OPEN_METEO_BASE_URL : string := "https://api.open-meteo.com/v1/forecast".

Record Response : Type := {
  ok : bool;
  status : number;
  json : Outcome WeatherData
}.

Definition Network : Type := string -> Outcome Response.

(** The URL of the request: the base, [?], and the six parameters in their
    order, each value encoded. *)
Definition request_url (coordinates : MapUtils.Coordinates) : string :=
  let lat := MapUtils.lat coordinates in
  let lng := MapUtils.lng coordinates in
  OPEN_METEO_BASE_URL ++ "?"
    ++ "latitude=" ++ encode (toString lat)
    ++ "&longitude=" ++ encode (toString lng)
    ++ "&current="
    ++ encode "temperature_2m,relative_humidity_2m,wind_speed_10m,wind_direction_10m,weather_code"
    ++ "&daily="
    ++ encode "temperature_2m_max,temperature_2m_min,weather_code,precipitation_sum"
    ++ "&timezone=" ++ encode "Asia/Shanghai"
    ++ "&forecast_days=" ++ encode "7".

Definition failure_message : string := "无法获取天气数据，请稍后重试".

(** The body of the [try], then the [catch], which logs whatever was thrown
    and throws a new error. *)
Definition getWeatherData (fetch : Network) (coordinates : MapUtils.Coordinates)
    : Outcome WeatherData :=
  let attempt :=
    match fetch (request_url coordinates) with
    | Rejected error => Rejected error
    | Resolved response =>
        if negb (ok response)
        then Rejected ("Weather API error: " ++ toString (status response))
        else json response
    end in
  match attempt with
  | Resolved data => Resolved data
  | Rejected _ => Rejected failure_message
  end.

(** The requests run in parallel and end in the order [schedule]; the
    [catch] logs the error and throws it again. *)
Definition getBatchWeatherData (fetch : Network)
    (locations : list MapUtils.Coordinates) (schedule : list nat)
    : option (Outcome (list WeatherData)) :=
  let promises := map (fun coord => getWeatherData fetch coord) locations in
  Promise.all promises schedule.

(** *** Facts *)

(** [getWeatherData] gives the forecast exactly when the request is
    answered, the answer is ok and its body is read; every failure, of the
    network, of the status or of the body, is reported by the same message. *)
Theorem getWeatherData_outcome (fetch : Network) (coordinates : MapUtils.Coordinates) :
  (exists response data,
     fetch (request_url coordinates) = Resolved response
     /\ ok response = true /\ json response = Resolved data
     /\ getWeatherData fetch coordinates = Resolved data)
  \/ ((forall response data,
         fetch (request_url coordinates) = Resolved response ->
         ok response = true -> json response <> Resolved data)
      /\ getWeatherData fetch coordinates = Rejected failure_message).
Proof.
  unfold getWeatherData.
  destruct (fetch (request_url coordinates)) as [response|e].
  - destruct (ok response) eqn:Hok; cbn [negb].
    + destruct (json response) as [data|e] eqn:Hj.
      * left. now exists response, data.
      * right. split; [|reflexivity].
        intros r d Hr _ Hd. injection Hr as <-. congruence.
    + right. split; [|reflexivity].
      intros r d Hr Hok'. injection Hr as <-. congruence.
  - right. split; [|reflexivity]. discriminate.
Qed.

Lemma getWeatherData_cases (fetch : Network) (coordinates : MapUtils.Coordinates) :
  (exists data, getWeatherData fetch coordinates = Resolved data)
  \/ getWeatherData fetch coordinates = Rejected failure_message.
Proof.
  unfold getWeatherData.
  destruct (fetch (request_url coordinates)) as [response|e]; [|now right].
  destruct (ok response); cbn [negb]; [|now right].
  destruct (json response) as [data|e]; [left; now exists data | now right].
Qed.

Lemma outcomes_resolved_or_rejected (fetch : Network)
    (locations : list MapUtils.Coordinates) :
  (exists forecasts,
     map (fun coord => getWeatherData fetch coord) locations = Resolved <$> forecasts)
  \/ (exists k,
        map (fun coord => getWeatherData fetch coord) locations !! k
        = Some (Rejected failure_message)).
Proof.
  induction locations as [|c locations IH].
  - left. now exists [].
  - cbn [map].
    destruct (getWeatherData_cases fetch c) as [(d & ->)| ->].
    + destruct IH as [(ds & ->)|(k & Hk)].
      * left. now exists (d :: ds).
      * right. now exists (S k).
    + right. now exists 0%nat.
Qed.

(** Whatever the order in which the requests end, the batch gives either the
    forecasts of all the locations, in the order of the locations, or the one
    failure message. *)
Theorem getBatchWeatherData_outcome (fetch : Network)
    (locations : list MapUtils.Coordinates) (schedule : list nat) :
  schedule ≡ₚ seq 0 (length locations) ->
  (exists forecasts,
     getBatchWeatherData fetch locations schedule = Some (Resolved forecasts)
     /\ Forall2 (fun coord data => getWeatherData fetch coord = Resolved data)
          locations forecasts)
  \/ ((exists coord, In coord locations
                     /\ getWeatherData fetch coord = Rejected failure_message)
      /\ getBatchWeatherData fetch locations schedule = Some (Rejected failure_message)).
Proof.
  intros Hperm. unfold getBatchWeatherData.
  set (promises := map (fun coord => getWeatherData fetch coord) locations).
  assert (Hlen : length promises = length locations) by apply length_map.
  destruct (outcomes_resolved_or_rejected fetch locations) as [(ds & E)|(k & Hk)];
    fold promises in E || fold promises in Hk.
  - left. exists ds. split.
    + rewrite E. apply Promise.all_resolved.
      rewrite <- (length_fmap Resolved ds), <- E, Hlen. exact Hperm.
    + unfold promises in E. clear -E. revert ds E.
      induction locations as [|c locations IH]; intros [|d ds] E;
        try discriminate; constructor.
      * now injection E.
      * apply IH. now injection E.
  - right. split.
    + unfold promises in Hk.
      change (map (fun coord => getWeatherData fetch coord) locations)
        with ((fun coord => getWeatherData fetch coord) <$> locations) in Hk.
      rewrite list_lookup_fmap in Hk.
      destruct (locations !! k) as [c|] eqn:Hc; [|discriminate].
      exists c. split; [|now injection Hk].
      apply list_elem_of_In. eapply list_elem_of_lookup_2. exact Hc.
    + destruct (Settling.all_rejected promises schedule)
        as (pre & j & post & reason & _ & Hj & _ & ->).
      * now rewrite Hlen.
      * now exists k, failure_message.
      * do 2 f_equal.
        destruct (outcomes_resolved_or_rejected fetch locations)
          as [(ds & E)|_].
        { fold promises in E. rewrite E, list_lookup_fmap in Hj.
          destruct (ds !! j); discriminate. }
        unfold promises in Hj.
        change (map (fun coord => getWeatherData fetch coord) locations)
          with ((fun coord => getWeatherData fetch coord) <$> locations) in Hj.
        rewrite list_lookup_fmap in Hj.
        destruct (locations !! j) as [c|]; [|discriminate].
        injection Hj as Hj.
        destruct (getWeatherData_cases fetch c) as [(d & Hd)|Hd]; congruence.
Qed.

End API.

(** A service that knows the weather of the northern half only. *)
Definition sample_service : Network nat :=
  fun url =>
    if String.eqb url (request_url (fun _ => "n") (fun s => s)
                         {| MapUtils.lat := Fin 31; MapUtils.lng := Fin 121 |})
    then Resolved {| ok := true; status := Fin 200; json := Resolved 25%nat |}
    else Resolved {| ok := false; status := Fin 500; json := Rejected "" |}.

Lemma getBatchWeatherData_outcome_witness :
  let toString := fun _ : number => "n" in
  let encode := fun s : string => s in
  let locations := [ {| MapUtils.lat := Fin 31; MapUtils.lng := Fin 121 |};
                     {| MapUtils.lat := Fin 30; MapUtils.lng := Fin 120 |} ] in
  (exists forecasts,
     getBatchWeatherData nat toString encode sample_service locations [1; 0]%nat
     = Some (Resolved forecasts)
     /\ Forall2 (fun coord data =>
                   getWeatherData nat toString encode sample_service coord
                   = Resolved data) locations forecasts)
  \/ ((exists coord, In coord locations
                     /\ getWeatherData nat toString encode sample_service coord
                        = Rejected failure_message)
      /\ getBatchWeatherData nat toString encode sample_service locations [1; 0]%nat
         = Some (Rejected failure_message)).
Proof.
  intros toString encode locations.
  apply (getBatchWeatherData_outcome nat toString encode sample_service
           locations [1; 0]%nat).
  apply Permutation_sym, (Permutation_rev [0; 1]%nat).
Defined.

End Weather.

(** ** WeatherCard.tsx: the wind direction *)

Module WeatherCard.

Local Open Scope Q_scope.

(** [Math.round(a)]: the nearest integer, a half going up. *)
Definition Math_round (a : number) : number :=
  match a with
  | Fin q => Fin (inject_Z (Qfloor (q + (1 # 2))))
  | _ => a
  end.

(** The integer part, toward zero. *)
Definition truncate (q : Q) : Z :=
  if Qle_bool 0 q then Qfloor q else Qceiling q.

(** [a % b]: the remainder has the sign of [a]. *)
Definition rem (a b : number) : number :=
  match a, b with
  | Fin p, Fin q =>
      if Qeq_bool q 0 then NaN else Fin (p - q * inject_Z (truncate (p / q)))
  | Fin p, (PosInf | NegInf) => Fin p
  | _, _ => NaN
  end.

(** [arr[n]] for a number [n]: an element only for an integer from 0 up to
    the length, [None] ([undefined]) otherwise. *)
Definition at_number {A : Type} (arr : list A) (n : number) : option A :=
  match n with
  | Fin q =>
      if Qeq_bool q (inject_Z (Qfloor q)) && Qle_bool 0 q
      then nth_error arr (Z.to_nat (Qfloor q))
      else None
  | _ => None
  end.

Definition directions : list string :=
  ["北"; "东北"; "东"; "东南"; "南"; "西南"; "西"; "西北"]%string.

Definition getWindDirection (degree : number) : option string :=
  let index := rem (Math_round (div degree (Fin 45))) (Fin 8) in
  at_number directions index.

(** *** Facts *)

Lemma Qfloor_unique (x : Q) (m : Z) :
  inject_Z m <= x -> x < inject_Z m + 1 -> Qfloor x = m.
Proof.
  intros Hl Hu.
  pose proof (Qfloor_le x) as H1. pose proof (Qlt_floor x) as H2.
  rewrite inject_Z_plus in H2. change (inject_Z 1) with 1 in H2.
  assert (Ha : inject_Z m < inject_Z (Qfloor x) + 1) by lra.
  assert (Hb : inject_Z (Qfloor x) < inject_Z m + 1) by lra.
  change 1 with (inject_Z 1) in Ha, Hb.
  rewrite <- inject_Z_plus in Ha, Hb.
  rewrite <- Zlt_Qlt in Ha, Hb. lia.
Qed.

Lemma Qceiling_unique (x : Q) (m : Z) :
  inject_Z m - 1 < x -> x <= inject_Z m -> Qceiling x = m.
Proof.
  intros Hl Hu. unfold Qceiling.
  rewrite (Qfloor_unique (- x) (- m)); [lia | |];
    rewrite inject_Z_opp; lra.
Qed.

Lemma inject_Z_le (a b : Z) : (a <= b)%Z -> inject_Z a <= inject_Z b.
Proof. now rewrite <- Zle_Qle. Qed.

Lemma inject_Z_lt (a b : Z) : (a < b)%Z -> inject_Z a < inject_Z b.
Proof. now rewrite <- Zlt_Qlt. Qed.

Lemma round_sector (q : Q) (m : Z) :
  45 * inject_Z m - 22.5 <= q -> q < 45 * inject_Z m + 22.5 ->
  Math_round (div (Fin q) (Fin 45)) = Fin (inject_Z m).
Proof.
  intros Hl Hu. cbn [div]. change (Qeq_bool 45 0) with false. cbn [Math_round].
  do 2 f_equal.
  assert (Et : q / 45 * 45 == q) by (field; discriminate).
  apply Qfloor_unique; lra.
Qed.

Lemma truncate_nonneg (x : Q) (m : Z) :
  0 <= x -> inject_Z m <= x -> x < inject_Z m + 1 -> truncate x = m.
Proof.
  intros H0 Hl Hu. unfold truncate.
  apply Qle_bool_iff in H0. rewrite H0. now apply Qfloor_unique.
Qed.

Lemma truncate_small_negative (x : Q) : - 1 < x -> x < 0 -> truncate x = 0%Z.
Proof.
  intros Hl Hu. unfold truncate.
  destruct (Qle_bool 0 x) eqn:E; [apply Qle_bool_iff in E; lra|].
  apply Qceiling_unique; change (inject_Z 0) with 0; lra.
Qed.

(** The direction is the compass point nearest to the angle, the boundary
    going to the next point clockwise; full turns are dropped.  The angle is
    at most a million turns: the sector boundaries and the halves between
    the integers are then binary64 numbers, the quotient [degree / 45] of
    the source is rounded by less than its distance to the next half, and
    the source rounds it to the same integer.  Far beyond (from about 2^52
    degrees on) the quotient has no fractional digits left and the source
    answers otherwise. *)
Theorem getWindDirection_sector (q : Q) (k : nat) (turns : Z) :
  (k < 8)%nat -> (0 <= turns <= 1000000)%Z ->
  inject_Z (360 * turns + 45 * Z.of_nat k) - 22.5 <= q ->
  q < inject_Z (360 * turns + 45 * Z.of_nat k) + 22.5 ->
  getWindDirection (Fin q) = directions !! k.
Proof.
  intros Hk [Ht _] Hl Hu. unfold getWindDirection.
  set (m := (8 * turns + Z.of_nat k)%Z).
  pose proof (inject_Z_le 0 turns Ht) as Qt.
  pose proof (inject_Z_le 0 (Z.of_nat k) ltac:(lia)) as Qk0.
  pose proof (inject_Z_le (Z.of_nat k) 7 ltac:(lia)) as Qk7.
  change (inject_Z 0) with 0 in Qt, Qk0. change (inject_Z 7) with 7 in Qk7.
  assert (Em : inject_Z m == 8 * inject_Z turns + inject_Z (Z.of_nat k)).
  { unfold m. now rewrite inject_Z_plus, inject_Z_mult. }
  assert (Eq : inject_Z (360 * turns + 45 * Z.of_nat k) == 45 * inject_Z m).
  { rewrite Em, inject_Z_plus, !inject_Z_mult.
    change (inject_Z 360) with 360. change (inject_Z 45) with 45. ring. }
  rewrite (round_sector q m) by lra.
  cbn [rem]. change (Qeq_bool 8 0) with false.
  assert (Eu : inject_Z m / 8 * 8 == inject_Z m) by (field; discriminate).
  rewrite (truncate_nonneg (inject_Z m / 8) turns) by lra.
  assert (Er : inject_Z m - 8 * inject_Z turns == inject_Z (Z.of_nat k)) by lra.
  unfold at_number.
  assert (Efl : Qfloor (inject_Z m - 8 * inject_Z turns) = Z.of_nat k).
  { rewrite Er. apply Qfloor_Z. }
  rewrite Efl.
  assert (E1 : Qeq_bool (inject_Z m - 8 * inject_Z turns) (inject_Z (Z.of_nat k)) = true)
    by (now apply Qeq_bool_iff).
  assert (E2 : Qle_bool 0 (inject_Z m - 8 * inject_Z turns) = true)
    by (apply Qle_bool_iff; lra).
  rewrite E1, E2, Nat2Z.id. cbn [andb].
  do 8 (destruct k as [|k]; [reflexivity|]). lia.
Qed.

Lemma getWindDirection_sector_witness :
  getWindDirection (Fin 400) = directions !! 1%nat.
Proof.
  apply (getWindDirection_sector 400 1 1); [lia | lia | discriminate | reflexivity].
Defined.

(** An angle between -337.5 and -22.5 has no direction: the remainder is
    negative and the array has nothing there. *)
Theorem getWindDirection_negative (q : Q) :
  - 337.5 <= q -> q < - 22.5 -> getWindDirection (Fin q) = None.
Proof.
  intros Hl Hu. unfold getWindDirection.
  assert (Et : q / 45 * 45 == q) by (field; discriminate).
  set (m := Qfloor (q / 45 + (1 # 2))).
  assert (Hm : Math_round (div (Fin q) (Fin 45)) = Fin (inject_Z m)) by reflexivity.
  rewrite Hm.
  pose proof (Qfloor_le (q / 45 + (1 # 2))) as Hf1.
  pose proof (Qlt_floor (q / 45 + (1 # 2))) as Hf2.
  fold m in Hf1, Hf2. rewrite inject_Z_plus in Hf2. change (inject_Z 1) with 1 in Hf2.
  assert (Hneg : inject_Z m < 0) by lra.
  assert (Hlow : - 8 < inject_Z m) by lra.
  cbn [rem]. change (Qeq_bool 8 0) with false.
  assert (Eu : inject_Z m / 8 * 8 == inject_Z m) by (field; discriminate).
  rewrite (truncate_small_negative (inject_Z m / 8)) by lra.
  unfold at_number.
  assert (E2 : Qle_bool 0 (inject_Z m - 8 * inject_Z 0) = false).
  { destruct (Qle_bool 0 _) eqn:E; [|reflexivity].
    apply Qle_bool_iff in E. change (inject_Z 0) with 0 in E. lra. }
  now rewrite E2, andb_false_r.
Qed.

Lemma getWindDirection_negative_witness : getWindDirection (Fin (-90)) = None.
Proof.
  apply (getWindDirection_negative (-90)); [discriminate | reflexivity].
Defined.

Example getWindDirection_examples :
  getWindDirection (Fin 0) = Some "北"%string
  /\ getWindDirection (Fin 22.5) = Some "东北"%string
  /\ getWindDirection (Fin 180) = Some "南"%string
  /\ getWindDirection (Fin 337.4) = Some "西北"%string
  /\ getWindDirection (Fin 337.5) = Some "北"%string
  /\ getWindDirection (Fin 360) = Some "北"%string
  /\ getWindDirection (Fin (-10)) = Some "北"%string
  /\ getWindDirection (Fin (-45)) = None
  /\ getWindDirection NaN = None.
Proof. repeat split. Qed.

End WeatherCard.

(** ** SVGMap.tsx and ZoomControls.tsx: dragging, colours and buttons *)

From Stdlib Require Import Qabs.
From stdpp Require Import strings.

Module MapView.

Import JS MapUtils SVGMap.

Local Open Scope Q_scope.

(** *** Dragging *)

Definition is_mouse (e : Event) : bool :=
  match e with
  | MouseDown _ _ _ | MouseMove _ _ | MouseUp | MouseLeave => true
  | _ => false
  end.

(** Pressing the left button at (a, b) and moving to (c, d) moves the map by
    (c - a, d - b), wherever it was, and further moves of the same drag
    depend on the last position only. *)
Theorem drag_follows_pointer (st : State) (px py a b c d c' d' : Q) :
  panOffset st = {| x := Fin px; y := Fin py |} ->
  let pressed := handle st (MouseDown 0 (Fin a) (Fin b)) in
  let moved := handle pressed (MouseMove (Fin c) (Fin d)) in
  let moved' := handle moved (MouseMove (Fin c') (Fin d')) in
  (exists qx qy, panOffset moved = {| x := Fin qx; y := Fin qy |}
                 /\ qx == px + (c - a) /\ qy == py + (d - b))
  /\ panOffset moved' = panOffset (handle pressed (MouseMove (Fin c') (Fin d')))
  /\ zoomLevel moved' = zoomLevel st
  /\ panOffset (handle (handle moved MouseUp) (MouseMove (Fin c') (Fin d')))
     = panOffset moved.
Proof.
  intros Hpan pressed moved moved'.
  unfold moved', moved, pressed. cbn [handle].
  unfold handleMouseDown, handleMouseMove, handleMouseUp.
  cbn [Z.eqb isDragging setDragStart setIsDragging setPanOffset dragStart
       panOffset zoomLevel].
  rewrite Hpan. cbn [x y sub add neg].
  split; [|split; [reflexivity | split; reflexivity]].
  eexists _, _. split; [reflexivity|]. split; ring.
Qed.

Lemma drag_follows_pointer_witness :
  let pressed := handle initial (MouseDown 0 (Fin 10) (Fin 10)) in
  let moved := handle pressed (MouseMove (Fin 30) (Fin 5)) in
  exists qx qy, panOffset moved = {| x := Fin qx; y := Fin qy |}
                /\ qx == 0 + (30 - 10) /\ qy == 0 + (5 - 10).
Proof.
  intros pressed moved.
  destruct (drag_follows_pointer initial 0 0 10 10 30 5 0 0 eq_refl) as (H & _).
  exact H.
Defined.

(** *** ZoomControls *)

(** [Math.abs(a)] *)
Definition Math_abs (a : number) : number :=
  match a with
  | NaN => NaN
  | PosInf | NegInf => PosInf
  | Fin q => Fin (Qabs q)
  end.

Definition minZoom : number := Fin 0.5.
Definition maxZoom : number := Fin 3.

Definition canZoomIn (zoomLevel : number) : bool := lt zoomLevel maxZoom.
Definition canZoomOut (zoomLevel : number) : bool := gt zoomLevel minZoom.
Definition isDefaultZoom (zoomLevel : number) : bool :=
  lt (Math_abs (sub zoomLevel (Fin 1))) (Fin 0.01).

(** With the zoom level in its range, a zoom button is enabled exactly when
    pressing it changes the zoom level: zooming in then raises the level and
    zooming out lowers it; a disabled button would leave it as it is. *)
Theorem zoom_buttons (st : State) (z : Q) :
  zoomLevel st = Fin z -> 0.5 <= z <= 3 ->
  (exists z_in, zoomLevel (handleZoomIn st) = Fin z_in
                /\ (canZoomIn (Fin z) = true -> z < z_in)
                /\ (canZoomIn (Fin z) = false -> z_in == z))
  /\ (exists z_out, zoomLevel (handleZoomOut st) = Fin z_out
                    /\ (canZoomOut (Fin z) = true -> z_out < z)
                    /\ (canZoomOut (Fin z) = false -> z_out == z)).
Proof.
  intros E Hz. split.
  - destruct (zoomIn_level st z E) as (r & -> & Hr). exists r.
    split; [reflexivity|]. unfold canZoomIn, maxZoom.
    destruct (Q.min_spec (z * 1.2) 3) as [[? Hm]|[? Hm]]; rewrite Hm in Hr;
      (split; [intros Hc; apply lt_Fin in Hc; lra|]);
      intros Hc; destruct (Qlt_le_dec z 3) as [Hlt|Hge];
      try (apply lt_Fin in Hlt; congruence); lra.
  - destruct (zoomOut_level st z E) as (r & -> & Hr). exists r.
    split; [reflexivity|]. unfold canZoomOut, minZoom, gt.
    assert (Hd : z / 1.2 * 1.2 == z) by (field; discriminate).
    destruct (Q.max_spec (z / 1.2) 0.5) as [[? Hm]|[? Hm]]; rewrite Hm in Hr;
      (split; [intros Hc; apply lt_Fin in Hc; lra|]);
      intros Hc; destruct (Qlt_le_dec 0.5 z) as [Hlt|Hge];
      try (apply lt_Fin in Hlt; congruence); lra.
Qed.

Lemma zoom_buttons_witness :
  0.5 <= 3 <= 3
  /\ exists z_in, zoomLevel (handleZoomIn (run [ZoomIn; ZoomIn; ZoomIn; ZoomIn;
                                                ZoomIn; ZoomIn; ZoomIn])) = Fin z_in
                  /\ (canZoomIn (Fin 3) = false -> z_in == 3).
Proof.
  split; [split; discriminate|].
  destruct (zoom_buttons (run [ZoomIn; ZoomIn; ZoomIn; ZoomIn; ZoomIn; ZoomIn; ZoomIn])
              3 eq_refl ltac:(split; discriminate)) as ((z_in & H1 & _ & H3) & _).
  exists z_in. split; [exact H1 | exact H3].
Defined.

(** Dragging never changes the zoom level, so after mouse events alone the
    reset button stays disabled, whatever the pan offset has become. *)
Theorem mouse_keeps_reset_disabled (events : list Event) :
  forallb is_mouse events = true ->
  zoomLevel (run events) = Fin 1
  /\ isDefaultZoom (zoomLevel (run events)) = true.
Proof.
  intros Hm.
  assert (H : zoomLevel (run events) = Fin 1).
  { unfold run. change (Fin 1) with (zoomLevel initial).
    generalize initial as st. revert Hm.
    induction events as [|e events IH]; intros Hm st; [reflexivity|].
    cbn [forallb] in Hm. apply andb_true_iff in Hm as [He Hm].
    cbn [fold_left]. rewrite (IH Hm).
    destruct e; try discriminate; cbn [handle].
    - unfold handleMouseDown. now destruct (button =? 0)%Z.
    - unfold handleMouseMove. now destruct (isDragging st).
    - reflexivity.
    - reflexivity. }
  split; [exact H | now rewrite H].
Qed.

Lemma mouse_keeps_reset_disabled_witness :
  isDefaultZoom
    (zoomLevel (run [MouseDown 0 (Fin 10) (Fin 10); MouseMove (Fin 30) (Fin 5); MouseUp]))
  = true
  /\ panOffset (run [MouseDown 0 (Fin 10) (Fin 10); MouseMove (Fin 30) (Fin 5); MouseUp])
     = {| x := Fin (30 - (10 - 0)); y := Fin (5 - (10 - 0)) |}.
Proof.
  split; [|reflexivity].
  apply (mouse_keeps_reset_disabled
           [MouseDown 0 (Fin 10) (Fin 10); MouseMove (Fin 30) (Fin 5); MouseUp]).
  reflexivity.
Defined.

(** *** The colour of a region *)

Section Style.

(** [String(adcode)] *)
Variable toString : number -> string.

Definition getCityType (adcode : number) : string :=
  let codeStr := toString adcode in
  if String.prefix "310" codeStr then "shanghai"
  else if String.prefix "3301" codeStr then "hangzhou"
  else if String.prefix "3305" codeStr then "huzhou"
  else if String.prefix "3304" codeStr then "jiaxing"
  else if String.prefix "3302" codeStr then "ningbo"
  else if String.prefix "3306" codeStr then "shaoxing"
  else if String.prefix "3309" codeStr then "zhoushan"
  else "unknown".

Definition cityColors : gmap string string :=
  list_to_map
    [ ("shanghai", "#e0f2fe"); ("hangzhou", "#f0f9ff"); ("huzhou", "#ecfdf5");
      ("jiaxing", "#fef7cd"); ("ningbo", "#fdf2f8"); ("shaoxing", "#f3e8ff");
      ("zhoushan", "#ecfccb"); ("unknown", "#f8fafc") ].

(** The style object; a [fill] of [None] would be [undefined]. *)
Record RegionStyle : Type := {
  fill : option string;
  stroke : string;
  strokeWidth : number;
  cursor : string;
  transition : string
}.

(** [selectedRegion] is a prop that may be missing and [hoveredRegion] a
    state that may be [null]: [None] in both cases. *)
Definition getRegionStyle (selectedRegion hoveredRegion : option string)
    (feature : GeoFeature) : RegionStyle :=
  let regionName := MapUtils.name feature in
  let isSelected := bool_decide (selectedRegion = Some regionName) in
  let isHovered := bool_decide (hoveredRegion = Some regionName) in
  let cityType := getCityType (adcode feature) in
  {| fill := if isSelected then Some "#3b82f6"
             else if isHovered then Some "#60a5fa"
             else cityColors !! cityType;
     stroke := if isSelected || isHovered then "#1d4ed8" else "#94a3b8";
     strokeWidth := if isSelected then Fin 2 else Fin 1;
     cursor := "pointer";
     transition := "all 0.2s ease-in-out" |}.

Lemma cityColors_total (adcode : number) :
  exists colour, cityColors !! getCityType adcode = Some colour
                 /\ colour <> "#3b82f6" /\ colour <> "#60a5fa".
Proof.
  unfold getCityType.
  repeat match goal with
         | |- context [if ?b then _ else _] => destruct b
         end;
    (eexists; split; [vm_compute; reflexivity | split; discriminate]).
Qed.

(** Every region gets a fill colour, whatever its code: the table of city
    colours has an entry for every city type.  The selection colour is the
    fill of the selected region only, and the hover colour that of a hovered
    region that is not selected. *)
Theorem getRegionStyle_fill (selectedRegion hoveredRegion : option string)
    (feature : GeoFeature) :
  let style := getRegionStyle selectedRegion hoveredRegion feature in
  (exists colour, fill style = Some colour)
  /\ (fill style = Some "#3b82f6" <-> selectedRegion = Some (MapUtils.name feature))
  /\ (fill style = Some "#60a5fa"
      <-> selectedRegion <> Some (MapUtils.name feature)
          /\ hoveredRegion = Some (MapUtils.name feature)).
Proof.
  cbv zeta. unfold getRegionStyle. cbn [fill].
  destruct (cityColors_total (adcode feature)) as (colour & -> & Hs & Hh).
  destruct (decide (selectedRegion = Some (MapUtils.name feature))) as [S|S];
    [rewrite (bool_decide_eq_true_2 _ S) | rewrite (bool_decide_eq_false_2 _ S)];
    (destruct (decide (hoveredRegion = Some (MapUtils.name feature))) as [H|H];
     [rewrite ?(bool_decide_eq_true_2 _ H) | rewrite ?(bool_decide_eq_false_2 _ H)]).
  - split; [eauto|]. split; [easy|]. split; [discriminate | tauto].
  - split; [eauto|]. split; [easy|]. split; [discriminate | tauto].
  - split; [eauto|]. split; [split; [discriminate | contradiction]|]. easy.
  - split; [eauto|].
    split; [split; [congruence | contradiction]|].
    split; [congruence | tauto].
Qed.

End Style.

End MapView.

(** ** SearchBox.tsx: the state of the search box *)

Module SearchState.

Import SearchBox.

Local Open Scope string_scope.

Record State : Type := {
  query : string;
  results : list SearchResult;
  isSearching : bool;
  isLoadingWeather : bool;
  showResults : bool;
  error : option string
}.

Definition initial : State :=
  {| query := ""; results := []; isSearching := false;
     isLoadingWeather := false; showResults := false; error := None |}.

Definition setQuery (v : string) (st : State) : State :=
  {| query := v; results := results st; isSearching := isSearching st;
     isLoadingWeather := isLoadingWeather st; showResults := showResults st;
     error := error st |}.

Definition setResults (v : list SearchResult) (st : State) : State :=
  {| query := query st; results := v; isSearching := isSearching st;
     isLoadingWeather := isLoadingWeather st; showResults := showResults st;
     error := error st |}.

Definition setIsSearching (v : bool) (st : State) : State :=
  {| query := query st; results := results st; isSearching := v;
     isLoadingWeather := isLoadingWeather st; showResults := showResults st;
     error := error st |}.

Definition setIsLoadingWeather (v : bool) (st : State) : State :=
  {| query := query st; results := results st; isSearching := isSearching st;
     isLoadingWeather := v; showResults := showResults st; error := error st |}.

Definition setShowResults (v : bool) (st : State) : State :=
  {| query := query st; results := results st; isSearching := isSearching st;
     isLoadingWeather := isLoadingWeather st; showResults := v; error := error st |}.

Definition setError (v : option string) (st : State) : State :=
  {| query := query st; results := results st; isSearching := isSearching st;
     isLoadingWeather := isLoadingWeather st; showResults := showResults st;
     error := v |}.

(** What the geocoding service answers: [response.ok] and the [results]
    field of the body, which may be missing. *)
Record Response : Type := {
  ok : bool;
  json : Promise.Outcome (option (list SearchResult))
}.

Section Handlers.

(** [s.trim()] *)
Variable trim : string -> string.

(** The weather read for a selected location. *)
Variable WeatherData : Type.

(** [searchLocations] up to its [await]: a blank query empties the list and
    ends there. *)
Definition searchLocations_start (searchQuery : string) (st : State) : State :=
  if String.eqb (trim searchQuery) ""
  then setShowResults false (setResults [] st)
  else setError None (setIsSearching true st).

(** [searchLocations] from the answer on: the [try], the [catch] and the
    [finally]. *)
Definition searchLocations_end (answer : Promise.Outcome Response) (st : State) : State :=
  let attempt :=
    match answer with
    | Promise.Rejected e => Promise.Rejected e
    | Promise.Resolved response =>
        if negb (ok response) then Promise.Rejected "搜索失败"
        else json response
    end in
  let st :=
    match attempt with
    | Promise.Resolved data_results =>
        let filteredResults := filteredResults data_results in
        setShowResults (0 <? length filteredResults)%nat
          (setResults filteredResults st)
    | Promise.Rejected _ =>
        setShowResults false (setResults [] (setError (Some "搜索失败，请重试") st))
    end in
  setIsSearching false st.

(** A string that is there and not empty. *)
Definition truthy (s : option string) : bool :=
  match s with
  | Some s => negb (String.eqb s "")
  | None => false
  end.

Definition handleLocationSelect_start (location : SearchResult) (st : State) : State :=
  setQuery
    (name location
       ++ (if truthy (admin2 location) then ", " ++ default "" (admin2 location) else "")
       ++ (if truthy (admin1 location) then ", " ++ default "" (admin1 location) else ""))
    (setShowResults false (setIsLoadingWeather true st)).

(** On success the weather goes to the callback of the page and the state
    only leaves the loading mode. *)
Definition handleLocationSelect_end (answer : Promise.Outcome WeatherData) (st : State)
    : State :=
  let st :=
    match answer with
    | Promise.Resolved _ => st
    | Promise.Rejected _ => setError (Some "获取天气数据失败") st
    end in
  setIsLoadingWeather false st.

Definition handleKeyDown (key : string) (st : State) : State :=
  if String.eqb key "Escape" then setShowResults false st else st.

(** [outside]: the box is mounted and the click is not inside it. *)
Definition handleClickOutside (outside : bool) (st : State) : State :=
  if outside then setShowResults false st else st.

Definition handleFocus (st : State) : State :=
  if (0 <? length (results st))%nat then setShowResults true st else st.

Inductive Event : Type :=
| InputChange (value : string)
| SearchStart (searchQuery : string)
| SearchEnd (answer : Promise.Outcome Response)
| SelectStart (location : SearchResult)
| SelectEnd (answer : Promise.Outcome WeatherData)
| KeyDown (key : string)
| ClickOutside (outside : bool)
| Focus.

Definition handle (st : State) (e : Event) : State :=
  match e with
  | InputChange value => setQuery value st
  | SearchStart searchQuery => searchLocations_start searchQuery st
  | SearchEnd answer => searchLocations_end answer st
  | SelectStart location => handleLocationSelect_start location st
  | SelectEnd answer => handleLocationSelect_end answer st
  | KeyDown key => handleKeyDown key st
  | ClickOutside outside => handleClickOutside outside st
  | Focus => handleFocus st
  end.

Definition run (events : list Event) : State := fold_left handle events initial.

(** *** Facts *)

Definition well_formed (st : State) : Prop :=
  (showResults st = true -> results st <> [])
  /\ (length (results st) <= 8)%nat
  /\ Forall (fun location => country location = "China") (results st).

Lemma filteredResults_kept (data_results : option (list SearchResult)) :
  (length (filteredResults data_results) <= 8)%nat
  /\ Forall (fun location => country location = "China") (filteredResults data_results).
Proof.
  unfold filteredResults, slice_from_0. rewrite sort_compareFn. split.
  - rewrite length_firstn. lia.
  - apply List.Forall_forall. intros location Hin.
    assert (Hin' : In location
              (List.filter isTarget
                 (List.filter (fun l => String.eqb (country l) "China")
                    (default [] data_results))
               ++ List.filter (fun b => negb (isTarget b))
                    (List.filter (fun l => String.eqb (country l) "China")
                       (default [] data_results)))).
    { rewrite <- (firstn_skipn 8). apply in_or_app. now left. }
    apply in_app_or in Hin'.
    assert (Hc : In location
              (List.filter (fun l => String.eqb (country l) "China")
                 (default [] data_results))).
    { destruct Hin' as [H|H]; apply List.filter_In in H; tauto. }
    apply List.filter_In in Hc as [_ Hc]. now apply String.eqb_eq.
Qed.

Lemma handle_well_formed (st : State) (e : Event) :
  well_formed st -> well_formed (handle st e).
Proof.
  intros (Hshow & Hlen & Hchina). unfold well_formed. destruct e; cbn [handle].
  - easy.
  - unfold searchLocations_start. destruct (String.eqb _ _); cbn.
    + repeat split; [discriminate | lia | constructor].
    + easy.
  - unfold searchLocations_end.
    destruct answer as [response|e]; [destruct (ok response); cbn [negb];
      [destruct (json response) as [data|e]|]|]; cbn;
      try (repeat split; [discriminate | lia | constructor]).
    destruct (filteredResults_kept data) as [H8 HC].
    split; [|split; assumption].
    intros H0 E. rewrite E in H0. discriminate.
  - cbn. repeat split; [discriminate | assumption | assumption].
  - unfold handleLocationSelect_end. destruct answer; easy.
  - unfold handleKeyDown. destruct (String.eqb _ _); [|easy].
    cbn. repeat split; [discriminate | assumption | assumption].
  - unfold handleClickOutside. destruct outside; [|easy].
    cbn. repeat split; [discriminate | assumption | assumption].
  - unfold handleFocus. destruct (0 <? length (results st))%nat eqn:E; [|easy].
    cbn. split; [|split; assumption].
    intros _ E0. rewrite E0 in E. discriminate.
Qed.

(** Whatever the user does and the services answer, the list of results is
    flagged as shown only when it is not empty, and it never holds more than
    8 locations nor a location outside China. *)
Theorem search_box_invariant (events : list Event) :
  let st := run events in
  (showResults st = true -> results st <> [])
  /\ (length (results st) <= 8)%nat
  /\ Forall (fun location => country location = "China") (results st).
Proof.
  cbv zeta. unfold run.
  assert (H0 : well_formed initial).
  { repeat split; [discriminate | cbn; lia | constructor]. }
  revert H0. generalize initial as st.
  induction events as [|e events IH]; intros st Hst; [exact Hst|].
  cbn [fold_left]. apply IH. now apply handle_well_formed.
Qed.

(** When a search ends, the search is no longer running and the list is
    shown exactly when it is not empty; a failed search leaves the error
    message and an empty list. *)
Theorem searchLocations_end_state (answer : Promise.Outcome Response) (st : State) :
  let st' := searchLocations_end answer st in
  isSearching st' = false
  /\ (showResults st' = true <-> results st' <> [])
  /\ ((forall response data,
         answer = Promise.Resolved response -> ok response = true ->
         json response <> Promise.Resolved data) ->
      results st' = [] /\ error st' = Some "搜索失败，请重试")
  /\ (forall response data,
        answer = Promise.Resolved response -> ok response = true ->
        json response = Promise.Resolved data ->
        results st' = filteredResults data /\ error st' = error st).
Proof.
  cbv zeta. unfold searchLocations_end.
  destruct answer as [response|e];
    [destruct (ok response) eqn:Hok; cbn [negb];
      [destruct (json response) as [data|e] eqn:Hj|]|]; cbn.
  - split; [reflexivity|]. split.
    + destruct (filteredResults data); cbn; [split; [discriminate | congruence]|].
      split; [discriminate | reflexivity].
    + split.
      * intros H. now elim (H response data).
      * intros r d Er _ Hd. injection Er as <-. rewrite Hj in Hd.
        injection Hd as <-. easy.
  - split; [reflexivity|]. split; [split; [discriminate | congruence]|].
    split; [easy|]. intros r d Er _ Hd. injection Er as <-. congruence.
  - split; [reflexivity|]. split; [split; [discriminate | congruence]|].
    split; [easy|]. intros r d Er Hok'. injection Er as <-. congruence.
  - split; [reflexivity|]. split; [split; [discriminate | congruence]|].
    split; [easy|]. discriminate.
Qed.

End Handlers.

End SearchState.

(** ** page.tsx: from a click on the map to the weather shown *)

Module HomePage.

Import JS MapUtils.

Local Open Scope string_scope.

(** The object [{ lat, lng }] that [getRegionCenter] returns.  A field is
    [None], that is [undefined], when the center array has no such
    element. *)
Record RegionCenter : Type := {
  center_lat : option number;
  center_lng : option number
}.

(** [getRegionCenter] of map-utils.ts; [None] when the feature has no
    center, where the destructuring throws. *)
Definition getRegionCenter (feature : GeoFeature) : option RegionCenter :=
  match center feature with
  | Some center =>
      let lng := nth_error center 0 in
      let lat := nth_error center 1 in
      Some {| center_lat := lat; center_lng := lng |}
  | None => None
  end.

(** [handleRegionClick] of SVGMap.tsx: the call it makes to [onRegionClick],
    if any, with the array [[center.lng, center.lat]]. *)
Definition SVGMap_handleRegionClick (has_onRegionClick : bool) (feature : GeoFeature)
    : option (string * list (option number)) :=
  if negb has_onRegionClick then None
  else
    match getRegionCenter feature with
    | Some center => Some (MapUtils.name feature, [center_lng center; center_lat center])
    | None => None
    end.

Record Location : Type := {
  name : string;
  lat : number;
  lng : number;
  latitude : number;
  longitude : number
}.

Record SearchLocation : Type := {
  s_name : string;
  s_latitude : number;
  s_longitude : number
}.

Section Page.

Variable WeatherData : Type.
Variable toString : number -> string.
Variable encode : string -> string.

(** The weather with its [location] field added. *)
Record Shown : Type := { weather : WeatherData; location : Location }.

Record State : Type := {
  selectedRegion : option string;
  weatherData : option Shown;
  loading : bool;
  error : option string;
  searchLocation : option SearchLocation
}.

Definition initial : State :=
  {| selectedRegion := None; weatherData := None; loading := false;
     error := None; searchLocation := None |}.

Definition setSelectedRegion (v : option string) (st : State) : State :=
  {| selectedRegion := v; weatherData := weatherData st; loading := loading st;
     error := error st; searchLocation := searchLocation st |}.

Definition setWeatherData (v : option Shown) (st : State) : State :=
  {| selectedRegion := selectedRegion st; weatherData := v; loading := loading st;
     error := error st; searchLocation := searchLocation st |}.

Definition setLoading (v : bool) (st : State) : State :=
  {| selectedRegion := selectedRegion st; weatherData := weatherData st; loading := v;
     error := error st; searchLocation := searchLocation st |}.

Definition setError (v : option string) (st : State) : State :=
  {| selectedRegion := selectedRegion st; weatherData := weatherData st;
     loading := loading st; error := v; searchLocation := searchLocation st |}.

Definition setSearchLocation (v : option SearchLocation) (st : State) : State :=
  {| selectedRegion := selectedRegion st; weatherData := weatherData st;
     loading := loading st; error := error st; searchLocation := v |}.

(** The message of the TypeError that the engine throws for
    [undefined.toString()]. *)
Variable type_error : string.

(** [coordinates[i]] in the array that the map passes; [None] is
    [undefined]. *)
Definition element (coordinates : list (option number)) (i : nat) : option number :=
  match nth_error coordinates i with
  | Some v => v
  | None => None
  end.

(** The object [coords] of [handleRegionClick], when its two fields are
    numbers. *)
Definition coords_of (coordinates : list (option number)) : option Coordinates :=
  match element coordinates 1, element coordinates 0 with
  | Some lat, Some lng => Some {| MapUtils.lat := lat; MapUtils.lng := lng |}
  | _, _ => None
  end.

(** [handleRegionClick] up to its [await]. *)
Definition handleRegionClick_start (regionName : string) (st : State) : State :=
  setError None (setLoading true (setSelectedRegion (Some regionName) st)).

(** [handleRegionClick] from the answer of [getWeatherData] on.  What
    [getWeatherData] throws is always an [Error], whose message is shown. *)
Definition handleRegionClick_end (regionName : string) (coordinates : list number)
    (answer : Promise.Outcome WeatherData) (st : State) : State :=
  let st :=
    match answer with
    | Promise.Resolved weather =>
        setWeatherData
          (Some {| weather := weather;
                   location := {| name := regionName;
                                  lat := nth 1 coordinates undefined;
                                  lng := nth 0 coordinates undefined;
                                  latitude := nth 1 coordinates undefined;
                                  longitude := nth 0 coordinates undefined |} |})
          st
    | Promise.Rejected message => setWeatherData None (setError (Some message) st)
    end in
  setLoading false st.

(** [handleRegionClick] with the array that the map passes, answered before
    anything else happens.  When a field of [coords] is [undefined],
    [lat.toString()] or [lng.toString()] throws a TypeError before the [try]
    of [getWeatherData]: the promise of the async function is rejected with
    it, nothing is fetched, and the [catch] of the page, which does not read
    the array, shows its message. *)
Definition handleRegionClick (fetch : Weather.Network WeatherData)
    (regionName : string) (coordinates : list (option number)) (st : State) : State :=
  let st := handleRegionClick_start regionName st in
  match coords_of coordinates with
  | Some coords =>
      handleRegionClick_end regionName [MapUtils.lng coords; MapUtils.lat coords]
        (Weather.getWeatherData WeatherData toString encode fetch coords) st
  | None => handleRegionClick_end regionName [] (Promise.Rejected type_error) st
  end.

Definition handleLocationSelect (location : SearchBox.SearchResult)
    (weatherData : WeatherData) (st : State) : State :=
  let st :=
    setSearchLocation
      (Some {| s_name := SearchBox.name location;
               s_latitude := SearchBox.latitude location;
               s_longitude := SearchBox.longitude location |}) st in
  let st := setSelectedRegion None st in
  let st :=
    setWeatherData
      (Some {| weather := weatherData;
               location := {| name := SearchBox.name location;
                              lat := SearchBox.latitude location;
                              lng := SearchBox.longitude location;
                              latitude := SearchBox.latitude location;
                              longitude := SearchBox.longitude location |} |}) st in
  setError None st.

Definition handleClearSelection (st : State) : State :=
  setError None (setWeatherData None (setSearchLocation None (setSelectedRegion None st))).

(** [selectedRegion || searchLocation] as a condition: a region name that is
    there and not empty, or a search location. *)
Definition has_selection (st : State) : bool :=
  match selectedRegion st with
  | Some s => negb (String.eqb s "") || bool_decide (searchLocation st <> None)
  | None => bool_decide (searchLocation st <> None)
  end.

(** The button of the error panel. *)
Definition handleRetry (st : State) : State :=
  if has_selection st then setLoading true (setError None st) else st.

(** The weather card is rendered. *)
Definition shows_card (st : State) : bool :=
  bool_decide (weatherData st <> None) && has_selection st && negb (loading st).

Inductive Event : Type :=
| RegionClickStart (regionName : string)
| RegionClickEnd (regionName : string) (coordinates : list number)
    (answer : Promise.Outcome WeatherData)
| LocationSelect (location : SearchBox.SearchResult) (weatherData : WeatherData)
| ClearSelection
| Retry.

Definition handle (st : State) (e : Event) : State :=
  match e with
  | RegionClickStart regionName => handleRegionClick_start regionName st
  | RegionClickEnd regionName coordinates answer =>
      handleRegionClick_end regionName coordinates answer st
  | LocationSelect location weatherData => handleLocationSelect location weatherData st
  | ClearSelection => handleClearSelection st
  | Retry => handleRetry st
  end.

Definition is_click_end (e : Event) : bool :=
  match e with RegionClickEnd _ _ _ => true | _ => false end.

(** *** Facts *)

(** A click on a feature, answered before anything else happens: the region
    is selected and the page stops loading.  With a center of two numbers
    [lng, lat] (more are ignored) the weather is asked for that latitude and
    longitude; on success it is stored with these coordinates and no error,
    on failure nothing is stored and the error shown is the one message of
    [getWeatherData].  With a center of fewer than two elements nothing is
    asked, whatever the network would answer: nothing is stored and the
    error shown is the message of the TypeError. *)
Theorem region_click (fetch : Weather.Network WeatherData) (feature : GeoFeature)
    (center : Position) (st : State) :
  MapUtils.center feature = Some center ->
  exists coordinates,
    SVGMap_handleRegionClick true feature = Some (MapUtils.name feature, coordinates)
    /\ let st' := handleRegionClick fetch (MapUtils.name feature) coordinates st in
       selectedRegion st' = Some (MapUtils.name feature)
       /\ loading st' = false
       /\ (forall lng lat rest, center = lng :: lat :: rest ->
             let answer :=
               Weather.getWeatherData WeatherData toString encode fetch
                 {| MapUtils.lat := lat; MapUtils.lng := lng |} in
             (exists w, answer = Promise.Resolved w
                        /\ weatherData st'
                           = Some {| weather := w;
                                     location :=
                                       {| name := MapUtils.name feature;
                                          lat := lat;
                                          lng := lng;
                                          latitude := lat;
                                          longitude := lng |} |}
                        /\ error st' = None)
             \/ (answer = Promise.Rejected Weather.failure_message
                 /\ weatherData st' = None
                 /\ error st' = Some Weather.failure_message))
       /\ ((length center < 2)%nat ->
           weatherData st' = None
           /\ error st' = Some type_error
           /\ forall fetch',
                handleRegionClick fetch' (MapUtils.name feature) coordinates st = st').
Proof.
  intros Hc. unfold SVGMap_handleRegionClick, getRegionCenter. rewrite Hc.
  cbn [negb center_lng center_lat].
  eexists. split; [reflexivity|].
  cbv zeta. unfold handleRegionClick, handleRegionClick_end, handleRegionClick_start.
  split; [destruct (coords_of _); [destruct (Weather.getWeatherData _ _ _ _ _)|];
          reflexivity|].
  split; [destruct (coords_of _); [destruct (Weather.getWeatherData _ _ _ _ _)|];
          reflexivity|].
  split.
  - intros lng lat rest ->. unfold coords_of, element.
    cbn [nth_error MapUtils.lng MapUtils.lat nth].
    destruct (Weather.getWeatherData_cases WeatherData toString encode fetch
                {| MapUtils.lat := lat; MapUtils.lng := lng |})
      as [(w & ->)| ->]; cbn.
    + left. now exists w.
    + now right.
  - intros Hlen. unfold coords_of, element.
    destruct center as [|lng [|lat rest]]; [| |cbn in Hlen; lia];
      cbn; repeat split.
Qed.

(** After the retry button, with a selection, the page is loading, and it
    stays so, the weather card hidden, until a region click ends: the button
    asks for nothing. *)
Theorem retry_keeps_loading (st : State) (events : list Event) :
  has_selection st = true ->
  forallb (fun e => negb (is_click_end e)) events = true ->
  let st' := fold_left handle events (handleRetry st) in
  loading st' = true /\ shows_card st' = false.
Proof.
  intros Hsel Hev. cbv zeta.
  assert (H : loading (fold_left handle events (handleRetry st)) = true).
  { assert (H0 : loading (handleRetry st) = true).
    { unfold handleRetry. now rewrite Hsel. }
    revert H0. generalize (handleRetry st) as s. revert Hev.
    induction events as [|e events IH]; intros Hev s Hs; [exact Hs|].
    cbn [forallb] in Hev. apply andb_true_iff in Hev as [He Hev].
    cbn [fold_left]. apply (IH Hev).
    destruct e; try discriminate; cbn; try exact Hs; try reflexivity.
    unfold handleRetry. now destruct (has_selection s). }
  split; [exact H|]. unfold shows_card. rewrite H. now rewrite andb_false_r.
Qed.

End Page.

Lemma region_click_witness :
  exists coordinates,
    SVGMap_handleRegionClick true
      {| adcode := Fin 310101; MapUtils.name := "A";
         center := Some [Fin 121; Fin 31]; geometry := Polygon [] |}
    = Some ("A", coordinates)
    /\ selectedRegion nat
         (handleRegionClick nat (fun _ => "n") (fun s => s) "TypeError"
            Weather.sample_service "A" coordinates (initial nat))
       = Some "A".
Proof.
  destruct (region_click nat (fun _ => "n") (fun s => s) "TypeError"
              Weather.sample_service
              {| adcode := Fin 310101; MapUtils.name := "A";
                 center := Some [Fin 121; Fin 31]; geometry := Polygon [] |}
              [Fin 121; Fin 31] (initial nat) eq_refl) as (c & H1 & H2).
  cbv zeta in H2. destruct H2 as (H2 & _).
  exists c. split; [exact H1 | exact H2].
Defined.

Lemma retry_keeps_loading_witness :
  let st := handleRegionClick_end nat "A" [Fin 121; Fin 31] (Promise.Rejected "e")
              (handleRegionClick_start nat "A" (initial nat)) in
  has_selection nat st = true
  /\ loading nat (fold_left (handle nat) [ClearSelection nat] (handleRetry nat st)) = true
  /\ shows_card nat (fold_left (handle nat) [ClearSelection nat] (handleRetry nat st))
     = false.
Proof.
  intros st.
  assert (Hsel : has_selection nat st = true) by reflexivity.
  split; [exact Hsel|].
  exact (retry_keeps_loading nat st [ClearSelection nat] Hsel eq_refl).
Defined.

End HomePage.

(** ** SVGMap.tsx: loading the map *)

Module MapLoad.

Import JS MapUtils.

Record State : Type := {
  mapData : option GeoData;
  bounds : option MapBounds;
  loading : bool;
  error : option string
}.

(** The view starts in the loading mode. *)
Definition initial : State :=
  {| mapData := None; bounds := None; loading := true; error := None |}.

(** [loadMapData] from the answer of [loadCombinedMapData] on: the rest of
    the [try], the [catch] and the [finally]. *)
Definition loadMapData_end (answer : Promise.Outcome CombinedMapData) (st : State)
    : State :=
  match answer with
  | Promise.Resolved result =>
      let combined := combined result in
      let mapBounds := calculateBounds combined None in
      {| mapData := Some combined; bounds := Some mapBounds;
         loading := false; error := None |}
  | Promise.Rejected _ =>
      {| mapData := mapData st; bounds := bounds st;
         loading := false; error := Some "地图数据加载失败"%string |}
  end.

(** [loadMapData], run when the view is mounted: it sets the loading mode and
    waits; [None] while the loads are running. *)
Definition loadMapData (fetch : Network) (schedule : list nat) (st : State)
    : option State :=
  let st := {| mapData := mapData st; bounds := bounds st;
               loading := true; error := error st |} in
  match loadCombinedMapData fetch schedule with
  | Some answer => Some (loadMapData_end answer st)
  | None => None
  end.

(** What the view renders. *)
Inductive View : Type :=
| Spinner
| ErrorPanel (message : string)
| Map (mapData : GeoData) (bounds : MapBounds).

Definition view (st : State) : View :=
  if loading st then Spinner
  else
    match error st, mapData st, bounds st with
    | Some message, _, _ =>
        if String.eqb message "" then
          match mapData st, bounds st with
          | Some m, Some b => Map m b
          | _, _ => ErrorPanel "地图数据不可用"
          end
        else ErrorPanel message
    | None, Some m, Some b => Map m b
    | None, _, _ => ErrorPanel "地图数据不可用"
    end.

(** *** Facts *)

Lemma resolved_or_rejected {A : Type} (outcomes : list (Promise.Outcome A)) :
  (exists vs, outcomes = Promise.Resolved <$> vs)
  \/ (exists k reason, outcomes !! k = Some (Promise.Rejected reason)).
Proof.
  induction outcomes as [|[v|r] outcomes IH].
  - left. now exists [].
  - destruct IH as [(vs & ->)|(k & r & Hk)].
    + left. now exists (v :: vs).
    + right. now exists (S k), r.
  - right. now exists 0%nat, r.
Qed.

(** Once the seven loads have ended, in whatever order, the view shows
    either the map, made of the features of all the cities in their fixed
    order with the bounds computed from them, or the one error message when
    a load has failed; it never shows a part of the cities. *)
Theorem loadMapData_outcome (fetch : Network) (schedule : list nat) :
  schedule ≡ₚ seq 0 7 ->
  exists st,
    loadMapData fetch schedule initial = Some st
    /\ ((exists data : CityType -> GeoData,
           (forall city, loadGeoData fetch city = Promise.Resolved (data city))
           /\ let combined :=
                {| features := flat_map (fun city => features (data city)) cityNames |} in
              view st = Map combined (calculateBounds combined None)
              /\ positions combined = flat_map (fun city => positions (data city)) cityNames)
        \/ ((exists city reason, loadGeoData fetch city = Promise.Rejected reason)
            /\ view st = ErrorPanel "地图数据加载失败")).
Proof.
  intros Hperm. unfold loadMapData, loadCombinedMapData.
  set (outcomes := map (fun city => loadGeoData fetch city) cityNames).
  destruct (resolved_or_rejected outcomes) as [(vs & E)|(k & r & Hk)].
  - assert (Hlen : length vs = 7%nat).
    { apply (f_equal (@length _)) in E. now rewrite length_fmap in E. }
    rewrite E, Promise.all_resolved by (now rewrite Hlen).
    eexists. split; [reflexivity|]. left.
    destruct vs as [|d0 [|d1 [|d2 [|d3 [|d4 [|d5 [|d6 [|d7 vs]]]]]]]]; try discriminate.
    unfold outcomes, cityNames in E. cbn [map fmap list_fmap] in E.
    injection E as E0 E1 E2 E3 E4 E5 E6.
    exists (fun city => match city with
                        | shanghai => d0 | hangzhou => d1 | huzhou => d2
                        | jiaxing => d3 | ningbo => d4 | shaoxing => d5
                        | zhoushan => d6
                        end).
    split; [now intros []|].
    cbv zeta. split; [reflexivity|].
    unfold positions, cityNames. cbn [features flat_map].
    rewrite !map_app, !concat_app. cbn [map concat]. now rewrite !app_nil_r.
  - destruct (Settling.all_rejected outcomes schedule Hperm)
      as (pre & j & post & reason & _ & Hj & _ & ->); [now exists k, r|].
    eexists. split; [reflexivity|]. right. split; [|reflexivity].
    unfold outcomes in Hj.
    change (map (fun city => loadGeoData fetch city) cityNames)
      with ((fun city => loadGeoData fetch city) <$> cityNames) in Hj.
    rewrite list_lookup_fmap in Hj.
    destruct (cityNames !! j) as [c|]; [|discriminate].
    exists c, reason. now injection Hj.
Qed.

Lemma loadMapData_outcome_witness :
  exists st,
    loadMapData sample_fetch [6; 5; 4; 3; 2; 1; 0]%nat initial = Some st
    /\ ((exists data : CityType -> GeoData,
           (forall city, loadGeoData sample_fetch city = Promise.Resolved (data city))
           /\ let combined :=
                {| features := flat_map (fun city => features (data city)) cityNames |} in
              view st = Map combined (calculateBounds combined None)
              /\ positions combined = flat_map (fun city => positions (data city)) cityNames)
        \/ ((exists city reason, loadGeoData sample_fetch city = Promise.Rejected reason)
            /\ view st = ErrorPanel "地图数据加载失败")).
Proof.
  apply (loadMapData_outcome sample_fetch [6; 5; 4; 3; 2; 1; 0]%nat).
  apply Permutation_sym, (Permutation_rev (seq 0 7)).
Defined.

End MapLoad.

(** ** SearchBox.tsx: what the cut to 8 results keeps *)

Module SearchKept.

Import SearchBox.

Lemma partition_Permutation {A : Type} (f : A -> bool) (l : list A) :
  List.filter f l ++ List.filter (fun a => negb (f a)) l ≡ₚ l.
Proof.
  induction l as [|a l IH]; [reflexivity|].
  cbn [List.filter]. destruct (f a); cbn [negb app].
  - now constructor.
  - rewrite <- Permutation_middle. now constructor.
Qed.

(** The Chinese locations of a response. *)
Definition chinese (results : option (list SearchResult)) : list SearchResult :=
  List.filter (fun location => String.eqb (country location) "China")
    (default [] results).

(** No Chinese location is lost while there are at most 8 of them, and no
    location of Shanghai or Zhejiang is lost while these are at most 8,
    however many other Chinese locations the response has. *)
Theorem filteredResults_keeps (results : option (list SearchResult)) :
  ((length (chinese results) <= 8)%nat -> filteredResults results ≡ₚ chinese results)
  /\ ((length (List.filter isTarget (chinese results)) <= 8)%nat ->
      forall location, In location (chinese results) -> isTarget location = true ->
        In location (filteredResults results)).
Proof.
  unfold filteredResults, slice_from_0. rewrite sort_compareFn. fold (chinese results).
  split.
  - intros Hlen. rewrite firstn_all2; [apply partition_Permutation|].
    rewrite (Permutation_length (partition_Permutation isTarget (chinese results))).
    exact Hlen.
  - intros Hlen location Hin Ht.
    rewrite firstn_app.
    apply in_or_app. left.
    rewrite firstn_all2 by exact Hlen.
    apply List.filter_In. now split.
Qed.

Lemma filteredResults_keeps_witness :
  let results :=
    Some [ {| name := "a"; latitude := Fin 30; longitude := Fin 120;
              country := "China"; admin1 := Some "Jiangsu"; admin2 := None |};
           {| name := "c"; latitude := Fin 30; longitude := Fin 120;
              country := "China"; admin1 := Some "Zhejiang"; admin2 := None |} ] in
  filteredResults results ≡ₚ chinese results.
Proof.
  intros results.
  destruct (filteredResults_keeps results) as [H _].
  apply H. cbn. lia.
Defined.

End SearchKept.
